(** * GeoCOM ASCII client: wire codec and transport session

    A shallow embedding of [utility_functions.py] (request framing, reply
    parsing, angle conversions) and of the [TPSConnection] class of
    [TSControl_Template.py] (one write-then-read exchange per [execute],
    cleanup in [__exit__]).

    Python values are represented as follows.
    - [bytes] objects are [list byte];
    - [str] objects are lists of Unicode code points ([list N]);
    - [int] objects are [Z] (unbounded).  Converting them to and from
      decimal text is subject to the interpreter's limit on the number of
      digits ([int_max_str_digits], CPython 3.11 and later), which the
      program leaves at its default [MAX_STR_DIGITS];
    - exceptions are values of [exn]; every constructor is one raise site
      and [exn_cls] gives the Python class raised there;
    - the [serial.Serial] base class is represented by the record [Serial]
      together with the three methods the program calls on it. *)

From Stdlib Require Import ZArith NArith List Bool Lia.
From Stdlib Require Import Strings.String Strings.Ascii Strings.Byte.
From Stdlib Require Import Numbers.DecimalString Numbers.DecimalZ Numbers.DecimalPos.
From Stdlib Require Import Numbers.DecimalFacts.
From Stdlib Require Import Reals Lra Floats.
Import ListNotations.

Local Open Scope Z_scope.
Local Open Scope list_scope.

(** ** Python [bytes] and [str] *)

Definition bytes := list byte.
Definition pystr := list N.

(** A [bytes] literal from its ASCII text. *)
Definition b (s : string) : bytes := list_byte_of_string s.

(** A [str] literal. *)
Definition u (s : string) : pystr := map Byte.to_N (list_byte_of_string s).

Definition CR : byte := x0d.
Definition LF : byte := x0a.
Definition COMMA : byte := x2c.
Definition COLON : byte := x3a.

Definition bytes_eqb (x y : bytes) : bool :=
  if list_eq_dec Byte.byte_eq_dec x y then true else false.

(** [s.encode("ascii")]: [None] stands for [UnicodeEncodeError]. *)
Fixpoint encode_ascii (s : pystr) : option bytes :=
  match s with
  | [] => Some []
  | c :: s' =>
      if (c <? 128)%N then
        match Byte.of_N c, encode_ascii s' with
        | Some x, Some r => Some (x :: r)
        | _, _ => None
        end
      else None
  end.

(** [x.decode("ascii")]: [None] stands for [UnicodeDecodeError]. *)
Fixpoint decode_ascii (x : bytes) : option pystr :=
  match x with
  | [] => Some []
  | c :: x' =>
      if (Byte.to_N c <? 128)%N then
        match decode_ascii x' with
        | Some r => Some (Byte.to_N c :: r)
        | None => None
        end
      else None
  end.

(** [x.split(sep)] for a one-byte separator: never the empty list. *)
Fixpoint split (sep : byte) (x : bytes) : list bytes :=
  match x with
  | [] => [[]]
  | c :: x' =>
      if Byte.eqb c sep then [] :: split sep x'
      else match split sep x' with
           | f :: fs => (c :: f) :: fs
           | [] => [[c]]
           end
  end.

(** [x.split(sep, 1)]: one or two pieces, cut at the first separator. *)
Fixpoint split1 (sep : byte) (x : bytes) : list bytes :=
  match x with
  | [] => [[]]
  | c :: x' =>
      if Byte.eqb c sep then [[]; x']
      else match split1 sep x' with
           | f :: fs => (c :: f) :: fs
           | [] => [[c]]
           end
  end.

(** [sep.join(parts)] on [str]. *)
Fixpoint join (sep : pystr) (parts : list pystr) : pystr :=
  match parts with
  | [] => []
  | [p] => p
  | p :: ps => p ++ sep ++ join sep ps
  end.

(** The same on [bytes], used to build replies in the statements below. *)
Fixpoint bjoin (sep : bytes) (parts : list bytes) : bytes :=
  match parts with
  | [] => []
  | [p] => p
  | p :: ps => p ++ sep ++ bjoin sep ps
  end.

Definition mem (c : byte) (chars : bytes) : bool := existsb (Byte.eqb c) chars.

(** [x.rstrip(chars)]: drops every trailing byte that occurs in [chars]. *)
Fixpoint rstrip (chars : bytes) (x : bytes) : bytes :=
  match x with
  | [] => []
  | c :: x' =>
      match rstrip chars x' with
      | [] => if mem c chars then [] else [c]
      | r => c :: r
      end
  end.

Fixpoint lstrip (chars : bytes) (x : bytes) : bytes :=
  match x with
  | [] => []
  | c :: x' => if mem c chars then lstrip chars x' else x
  end.

(** ** Python [int] *)

(** [sys.int_info.default_max_str_digits]: the longest decimal numeral
    that [str] writes for an [int] and that [int] reads.  A conversion with
    more digits raises [ValueError]. *)
Definition MAX_STR_DIGITS : Z := 4300.

(** [Py_ISSPACE]. *)
Definition WHITESPACE : bytes := [x09; x0a; x0b; x0c; x0d; x20].

Definition digit_value (c : byte) : option Z :=
  let n := Byte.to_N c in
  if ((48 <=? n) && (n <=? 57))%N then Some (Z.of_N n - 48) else None.

(** The number of digits among the bytes of [x]; signs, underscores and
    white space do not count, leading zeros do. *)
Definition digit_count (x : bytes) : Z :=
  Z.of_nat (List.length
              (filter (fun c => match digit_value c with
                                | Some _ => true
                                | None => false
                                end) x)).

(** The decimal numeral of an integer as ASCII bytes, with a minus sign
    for negative numbers. *)
Definition decimal (n : Z) : bytes := b (NilZero.string_of_int (Z.to_int n)).

(** [str(n)] for an [int], also what an f-string writes for it: the
    decimal numeral.  [None] stands for the [ValueError] raised when the
    numeral has more than [MAX_STR_DIGITS] digits. *)
Definition str_int (n : Z) : option pystr :=
  if MAX_STR_DIGITS <? digit_count (decimal n) then None
  else Some (u (NilZero.string_of_int (Z.to_int n))).

(** Digits of a base-10 literal; single underscores may separate digits.
    [us] says that the previous byte was an underscore or that no byte was
    read yet, so that empty literals and leading, doubled and trailing
    underscores are refused. *)
Fixpoint int_digits (acc : Z) (us : bool) (x : bytes) : option Z :=
  match x with
  | [] => if us then None else Some acc
  | c :: x' =>
      if Byte.eqb c x5f then
        if us then None else int_digits acc true x'
      else
        match digit_value c with
        | Some d => int_digits (10 * acc + d) false x'
        | None => None
        end
  end.

(** The literal of [int(x)] behind the sign: refused when it has more than
    [MAX_STR_DIGITS] digits, read by [int_digits] otherwise. *)
Definition int_literal (x : bytes) : option Z :=
  if MAX_STR_DIGITS <? digit_count x then None else int_digits 0 true x.

(** [int(x)] for a [bytes] object: optional white space around an optional
    sign and a base-10 literal.  [None] stands for [ValueError]. *)
Definition py_int (x : bytes) : option Z :=
  match lstrip WHITESPACE x with
  | x2b :: r => int_literal (rstrip WHITESPACE r)
  | x2d :: r => option_map Z.opp (int_literal (rstrip WHITESPACE r))
  | r => int_literal (rstrip WHITESPACE r)
  end.

(** ** Exceptions *)

Inductive exn_class : Type :=
| BaseException
| OSError                  (* [IOError] is the same class *)
| ConnectionError
| ValueError
| UnicodeEncodeError
| UnicodeDecodeError
| NameError
| SerialException
| PortNotOpenError.

(** Direct base class. *)
Definition base (c : exn_class) : exn_class :=
  match c with
  | BaseException => BaseException
  | OSError => BaseException
  | ConnectionError => OSError
  | ValueError => BaseException
  | UnicodeEncodeError => ValueError
  | UnicodeDecodeError => ValueError
  | NameError => BaseException
  | SerialException => OSError
  | PortNotOpenError => SerialException
  end.

Definition exn_class_eqb (c d : exn_class) : bool :=
  match c, d with
  | BaseException, BaseException | OSError, OSError
  | ConnectionError, ConnectionError | ValueError, ValueError
  | UnicodeEncodeError, UnicodeEncodeError
  | UnicodeDecodeError, UnicodeDecodeError | NameError, NameError
  | SerialException, SerialException
  | PortNotOpenError, PortNotOpenError => true
  | _, _ => false
  end.

(** [issubclass c d]; the hierarchy has depth three. *)
Definition issubclass (c d : exn_class) : bool :=
  exn_class_eqb c d || exn_class_eqb (base c) d
  || exn_class_eqb (base (base c)) d || exn_class_eqb (base (base (base c))) d.

Inductive exn : Type :=
| NoResponse                      (* get_response: "Failed to receive a response message." *)
| Unpack (got : nat)              (* unpacking a list of [got] items into the names of a target *)
| HeaderCount (got : nat)         (* _get_response_header: "Expected 2 or 3, received {got}" *)
| ReplyType                       (* _get_response_header: not GeoCOM reply type 1 *)
| IntLiteral (lit : bytes)        (* int(): invalid literal, or one beyond the digit limit *)
| StrDigits                       (* str() of an int beyond the digit limit *)
| AsciiDecode                     (* bytes.decode("ascii") *)
| AsciiEncode                     (* str.encode("ascii") *)
| CommunicationCode (code : Z)    (* execute: communications error with error code {code} *)
| RpcCode (code : Z)              (* execute: GeoCOM error produced with error code {code} *)
| PortOpenFailed                  (* __enter__: "Serial port open failed" *)
| GlobalUnbound (name : string)   (* a global name that is not defined *)
| PortNotOpen                     (* serial: operation on a closed port *)
| WriteFailed.                    (* serial: the operating system refused the write *)

Definition exn_cls (e : exn) : exn_class :=
  match e with
  | NoResponse => ConnectionError
  | Unpack _ => ValueError
  | HeaderCount _ => ValueError
  | ReplyType => ValueError
  | IntLiteral _ => ValueError
  | StrDigits => ValueError
  | AsciiDecode => UnicodeDecodeError
  | AsciiEncode => UnicodeEncodeError
  | CommunicationCode _ => ConnectionError
  | RpcCode _ => ValueError
  | PortOpenFailed => OSError
  | GlobalUnbound _ => NameError
  | PortNotOpen => PortNotOpenError
  | WriteFailed => SerialException
  end.

(** [isinstance(e, c)], what an [except c] clause tests. *)
Definition isinstance (e : exn) (c : exn_class) : bool := issubclass (exn_cls e) c.

(** Outcome of a pure computation that may raise. *)
Definition result (A : Type) : Type := (exn + A)%type.

Definition rbind {A B} (r : result A) (k : A -> result B) : result B :=
  match r with
  | inl e => inl e
  | inr a => k a
  end.

Definition int_of (x : bytes) : result Z :=
  match py_int x with
  | Some n => inr n
  | None => inl (IntLiteral x)
  end.

(** ** Replies: [get_response] and its helpers *)

Definition TERMINATION_STRING : pystr := u (String "013" (String "010" EmptyString)).

(** The tuple [get_response] returns, in its order. *)
Record reply : Type := mkReply {
  rpc_return_code : Z;
  parameters : list pystr;
  transaction_id : option Z;
  communication_return_code : Z
}.

Definition _get_response_header (header : bytes) : result (Z * option Z) :=
  let header_parts := split COMMA header in
  rbind
    (match header_parts with
     | [reply_type; communication_return_code] =>
         inr (reply_type, communication_return_code, None)
     | [reply_type; communication_return_code; transaction_id] =>
         inr (reply_type, communication_return_code, Some transaction_id)
     | _ => inl (HeaderCount (List.length header_parts))
     end)
    (fun '(reply_type, communication_return_code, transaction_id) =>
       if negb (bytes_eqb reply_type (b "%R1P")) then inl ReplyType
       else
         rbind
           (match transaction_id with
            | None => inr None
            | Some t => rbind (int_of t) (fun n => inr (Some n))
            end)
           (fun transaction_id =>
              rbind (int_of communication_return_code)
                (fun c => inr (c, transaction_id)))).

Fixpoint decode_all (xs : list bytes) : result (list pystr) :=
  match xs with
  | [] => inr []
  | x :: xs' =>
      match decode_ascii x with
      | None => inl AsciiDecode
      | Some s => rbind (decode_all xs') (fun r => inr (s :: r))
      end
  end.

Definition _get_response_parameters (raw_parameters : bytes) : result (Z * list pystr) :=
  match encode_ascii TERMINATION_STRING with
  | None => inl AsciiEncode
  | Some chars =>
      let parameters := rstrip chars raw_parameters in
      match split COMMA parameters with
      | return_code :: params_list =>
          rbind (decode_all params_list)
            (fun parameters_as_string =>
               rbind (int_of return_code)
                 (fun n => inr (n, parameters_as_string)))
      | [] => inl (Unpack 0)
      end
  end.

(** [get_response] from the line on: everything after [readline]. *)
Definition decode (response : bytes) : result reply :=
  match response with
  | [] => inl NoResponse
  | _ =>
      match split1 COLON response with
      | [header_part; parameters_part] =>
          rbind (_get_response_header header_part)
            (fun '(communication_return_code, transaction_id) =>
               rbind (_get_response_parameters parameters_part)
                 (fun '(rpc_return_code, parameters) =>
                    inr (mkReply rpc_return_code parameters transaction_id
                           communication_return_code)))
      | parts => inl (Unpack (List.length parts))
      end
  end.

Definition CRLF : bytes := [CR; LF].

(** ** Requests: the frame built by [send_request] *)

(** [str(value)], for the values a caller may pass as parameters.  [None]
    stands for the [ValueError] of an [int] beyond the digit limit. *)
Class Str (V : Type) : Type := str : V -> option pystr.

#[export] Instance Str_int : Str Z := str_int.
#[export] Instance Str_str : Str pystr := fun s => Some s.
#[export] Instance Str_sum {V W : Type} `{Str V} `{Str W} : Str (V + W) :=
  fun x => match x with inl v => str v | inr w => str w end.

(** [str(value)] as a computation that may raise. *)
Definition str_of {V : Type} `{Str V} (value : V) : result pystr :=
  match str value with
  | Some s => inr s
  | None => inl StrDigits
  end.

(** The generator of line 74, which [join] consumes in order. *)
Fixpoint str_each {V : Type} `{Str V} (values : list V) : result (list pystr) :=
  match values with
  | [] => inr []
  | value :: values' =>
      rbind (str_of value)
        (fun s => rbind (str_each values') (fun r => inr (s :: r)))
  end.

(** Lines 70-77 of [send_request]: the value of [request_string].  The
    transaction id is rendered first (line 71), then the parameters (line
    74), then the RPC code inside the f-string, which is encoded at last
    (line 77). *)
Definition request_string {V : Type} `{Str V}
    (rpc_code : Z) (parameters : list V) (transaction_id : option Z) : result bytes :=
  rbind (match transaction_id with
         | None => inr []
         | Some t => str_of t
         end)
    (fun tr_id : pystr =>
       rbind (str_each parameters)
         (fun rendered =>
            let parameters : pystr := join (u ",") rendered in
            rbind (str_of rpc_code)
              (fun code =>
                 match encode_ascii
                         (u "%R1Q," ++ code ++ tr_id ++ u ":" ++ parameters
                            ++ TERMINATION_STRING) with
                 | Some request => inr request
                 | None => inl AsciiEncode
                 end))).

(** ** The serial port *)

(** Model of the [serial.Serial] base class (pyserial), as far as the
    program uses it.  [sent] collects what [write] handed to the link,
    [incoming] is what the instrument delivers before the read timeout
    expires, [write_ok] says whether the operating system accepts writes. *)
Record Serial : Type := mkSerial {
  is_open : bool;
  sent : bytes;
  incoming : bytes;
  write_ok : bool
}.

(** Objects are reached through references; [tps] is the module-level
    global of that name, [None] while it is unbound. *)
Definition ref : Type := nat.

Record world : Type := mkWorld {
  objects : ref -> Serial;
  tps : option ref
}.

Definition update (w : world) (r : ref) (s : Serial) : world :=
  mkWorld (fun r' => if Nat.eqb r' r then s else objects w r') (tps w).

Definition bind_tps (w : world) (r : ref) : world := mkWorld (objects w) (Some r).

(** Statements: they change the world and return or raise. *)
Definition M (A : Type) : Type := world -> result A * world.

Definition ret {A} (a : A) : M A := fun w => (inr a, w).
Definition raise {A} (e : exn) : M A := fun w => (inl e, w).
Definition bind {A B} (m : M A) (k : A -> M B) : M B :=
  fun w => match m w with
           | (inl e, w') => (inl e, w')
           | (inr a, w') => k a w'
           end.
Definition lift {A} (r : result A) : M A := fun w => (r, w).

Notation "x <- m ;; k" := (bind m (fun x => k))
  (at level 61, m at next level, right associativity).
Notation "m ;;; k" := (bind m (fun _ => k))
  (at level 61, right associativity).

(** The first line of the input buffer: through the first line feed, or
    all there is when the timeout expires first. *)
Fixpoint take_line (x : bytes) : bytes * bytes :=
  match x with
  | [] => ([], [])
  | c :: x' =>
      if Byte.eqb c LF then ([c], x')
      else let (l, r) := take_line x' in (c :: l, r)
  end.

(** [Serial.write(data)] *)
Definition write (self : ref) (data : bytes) : M unit :=
  fun w =>
    let s := objects w self in
    if negb (is_open s) then (inl PortNotOpen, w)
    else if negb (write_ok s) then (inl WriteFailed, w)
    else (inr tt, update w self (mkSerial (is_open s) (sent s ++ data) (incoming s) (write_ok s))).

(** [Serial.readline()] *)
Definition readline (self : ref) : M bytes :=
  fun w =>
    let s := objects w self in
    if negb (is_open s) then (inl PortNotOpen, w)
    else
      let (line, rest) := take_line (incoming s) in
      (inr line, update w self (mkSerial (is_open s) (sent s) rest (write_ok s))).

(** [Serial.close()] *)
Definition close (self : ref) : M unit :=
  fun w =>
    let s := objects w self in
    (inr tt, update w self (mkSerial false (sent s) (incoming s) (write_ok s))).

(** Reading the global [tps]. *)
Definition global_tps : M ref :=
  fun w => match tps w with
           | Some r => (inr r, w)
           | None => (inl (GlobalUnbound "tps"), w)
           end.

(** ** [send_request], [get_response] and the class [TPSConnection]

    Calls of [logger.info] are left out. *)

Definition send_request {V : Type} `{Str V} (tps_connection : ref)
    (rpc_code : Z) (parameters : list V) (transaction_id : option Z) : M unit :=
  request <- lift (request_string rpc_code parameters transaction_id) ;;
  write tps_connection request.

Definition get_response (tps_connection : ref) : M reply :=
  response <- readline tps_connection ;;
  lift (decode response).

Definition __enter__ (self : ref) : M ref :=
  fun w =>
    if negb (is_open (objects w self)) then (inl PortOpenFailed, w)
    else (inr self, w).

Definition execute {V : Type} `{Str V} (self : ref)
    (rpc_code : Z) (parameters : list V) (transaction_id : option Z) : M reply :=
  send_request self rpc_code parameters transaction_id ;;;
  r <- get_response self ;;
  if negb (communication_return_code r =? 0) then
    raise (CommunicationCode (communication_return_code r))
  else if negb (rpc_return_code r =? 0) then
    raise (RpcCode (rpc_return_code r))
  else ret r.

Definition __exit__ (self : ref) : M unit :=
  execute self 2008 [0; 0] None ;;;
  other <- global_tps ;;
  execute other 2020 [2] None ;;;
  close self.

(** [with self as tps: body], at module level: the value of [__enter__] is
    bound to the global [tps]; [__exit__] runs however the body ends, and
    since it returns [None] an exception of the body is raised again. *)
Definition with_as_tps {A} (self : ref) (body : M A) : M A :=
  fun w =>
    match __enter__ self w with
    | (inl e, w1) => (inl e, w1)
    | (inr v, w1) =>
        match body (bind_tps w1 v) with
        | (outcome, w2) =>
            match __exit__ self w2 with
            | (inl e, w3) => (inl e, w3)
            | (inr _, w3) => (outcome, w3)
            end
        end
    end.

(** ** Angle conversions *)

Module Host.
(** The conversions on the host's binary64 numbers, as Python evaluates
    them: left to right, every operation rounded. *)
Local Open Scope float_scope.

(** [np.pi] *)
Definition pi : float := 0x1.921fb54442d18p+1.

Definition gon2rad (angle : float) : float := angle * pi / 200.
Definition rad2gon (angle : float) : float := angle * 200 / pi.
Definition deg2rad (angles : float) : float := angles * (pi / 180).
Definition rad2deg (angles : float) : float := angles * (180 / pi).
End Host.

(** ** Anatomy of a reply line, in the operations of the parser *)

(** What precedes the first colon, and what follows it. *)
Definition header_of (raw : bytes) : bytes := hd [] (split1 COLON raw).
Definition body_of (raw : bytes) : bytes := hd [] (tl (split1 COLON raw)).

Definition header_fields (raw : bytes) : list bytes := split COMMA (header_of raw).
Definition body_fields (raw : bytes) : list bytes :=
  split COMMA (rstrip CRLF (body_of raw)).

(** An outcome that is an exception of class [c] or of a subclass. *)
Definition raises {A} (r : result A) (c : exn_class) : Prop :=
  exists e, r = inl e /\ isinstance e c = true.

(** ** Worlds used in the examples *)

(** A port that has not sent anything yet. *)
Definition port (open : bool) (incoming : bytes) (write_ok : bool) : Serial :=
  mkSerial open [] incoming write_ok.

(** Object [0] is in state [s0], every other object in state [s1]. *)
Definition two_ports (s0 s1 : Serial) (g : option ref) : world :=
  mkWorld (fun r => match r with O => s0 | S _ => s1 end) g.

(** The instrument answers two exchanges with success; [g] is the global. *)
Definition answering (g : option ref) : world :=
  two_ports (port true (b "%R1P,0:0" ++ CRLF ++ b "%R1P,0:0" ++ CRLF) true)
            (port true (b "%R1P,0:0" ++ CRLF) true) g.

(** The same instrument behind a link that refuses writes. *)
Definition refusing_writes : world :=
  two_ports (port true (b "%R1P,0:0" ++ CRLF ++ b "%R1P,0:0" ++ CRLF) false)
            (port true [] true) (Some 0%nat).

(** A silent instrument on port [0]; the global names port [1]. *)
Definition silent : world :=
  two_ports (port true [] true) (port true [] true) (Some 1%nat).

(** Ports that are closed. *)
Definition closed_ports : world :=
  two_ports (port false [] true) (port false [] true) None.

(** The instrument reports communication status 5 and RPC status 3. *)
Definition reporting : world :=
  two_ports (port true (b "%R1P,5:3" ++ CRLF) true) (port true [] true) None.

(** 1e306 *)
Definition large_angle : float := 0x1.6c8e5ca239029p+1016%float.

(** The effect a statement may have besides sending and receiving on
    [self]: none.  Ports stay open or closed, the link keeps its condition,
    other objects and the global are untouched. *)
Definition exchange_only (self : ref) (w w' : world) : Prop :=
  tps w' = tps w
  /\ is_open (objects w' self) = is_open (objects w self)
  /\ write_ok (objects w' self) = write_ok (objects w self)
  /\ forall x, x <> self -> objects w' x = objects w x.

(** An integer whose decimal numeral is within the digit limit. *)
Definition fits (n : Z) : Prop := digit_count (decimal n) <= MAX_STR_DIGITS.

(** Value of a numeral read from the left with [acc] already read. *)
Fixpoint numeral_value (acc : Z) (d : Decimal.uint) : Z :=
  match d with
  | Decimal.Nil => acc
  | Decimal.D0 d => numeral_value (10 * acc) d
  | Decimal.D1 d => numeral_value (10 * acc + 1) d
  | Decimal.D2 d => numeral_value (10 * acc + 2) d
  | Decimal.D3 d => numeral_value (10 * acc + 3) d
  | Decimal.D4 d => numeral_value (10 * acc + 4) d
  | Decimal.D5 d => numeral_value (10 * acc + 5) d
  | Decimal.D6 d => numeral_value (10 * acc + 6) d
  | Decimal.D7 d => numeral_value (10 * acc + 7) d
  | Decimal.D8 d => numeral_value (10 * acc + 8) d
  | Decimal.D9 d => numeral_value (10 * acc + 9) d
  end.

(** The bytes [0] to [9]. *)
Definition is_digit (c : byte) : Prop := digit_value c <> None.

(** Code points outside ASCII. *)
Definition non_ascii (c : N) : Prop := (128 <= c)%N.

(** ** The script [main.py] *)

(** Unpacking a list into two names. *)
Definition unpack2 (parts : list bytes) : result (bytes * bytes) :=
  match parts with
  | [x; y] => inr (x, y)
  | _ => inl (Unpack (List.length parts))
  end.

(** The script from the constructed port on.  Besides the outcome and the
    world it yields the lines printed, in their order. *)
Definition main_py (TPS_port : ref) (w : world) : result unit * world * list string :=
  if is_open (objects w TPS_port) then
    match (request <- lift (match encode_ascii (u "%R1Q,2107:" ++ [13%N; 10%N]) with
                            | Some x => inr x
                            | None => inl AsciiEncode
                            end) ;;
           write TPS_port request ;;;
           response <- readline TPS_port ;;
           lift (unpack2 (split1 COLON response)) ;;;
           close TPS_port) w with
    | (inl e, w') => (inl e, w', ["Port is connected"%string])
    | (inr _, w') =>
        if negb (is_open (objects w' TPS_port))
        then (inr tt, w', ["Port is connected"%string; "Port is disconnected"%string])
        else (inr tt, w', ["Port is connected"%string])
    end
  else (inr tt, w, ["Port is disconnected"%string]).

(** One numeral written behind another. *)
Fixpoint numeral_app (d d' : Decimal.uint) : Decimal.uint :=
  match d with
  | Decimal.Nil => d'
  | Decimal.D0 d => Decimal.D0 (numeral_app d d')
  | Decimal.D1 d => Decimal.D1 (numeral_app d d')
  | Decimal.D2 d => Decimal.D2 (numeral_app d d')
  | Decimal.D3 d => Decimal.D3 (numeral_app d d')
  | Decimal.D4 d => Decimal.D4 (numeral_app d d')
  | Decimal.D5 d => Decimal.D5 (numeral_app d d')
  | Decimal.D6 d => Decimal.D6 (numeral_app d d')
  | Decimal.D7 d => Decimal.D7 (numeral_app d d')
  | Decimal.D8 d => Decimal.D8 (numeral_app d d')
  | Decimal.D9 d => Decimal.D9 (numeral_app d d')
  end.

(** The numeral of a natural number, [0] for zero. *)
Definition numeral_of (n : Z) : Decimal.uint :=
  match n with
  | Z.pos p => Pos.to_uint p
  | _ => Decimal.D0 Decimal.Nil
  end.

(** * Properties *)

(** ** Empty reads *)

(** C6: on the empty line (nothing was read before the timeout) [decode]
    raises the [ConnectionError] of [get_response]; the test comes first:
    parsing the empty line would have stopped at the unpacking of
    [split(b":", 1)], which yields a single piece.  So does [get_response]
    on an open port whose input buffer stays empty. *)
Theorem decode_empty_connection_error :
  decode [] = inl NoResponse
  /\ exn_cls NoResponse = ConnectionError
  /\ split1 COLON [] = [[]]
  /\ (forall (objs : ref -> Serial) (g : option ref) (self : ref)
        (out : bytes) (ok : bool),
        fst (get_response self
               (update (mkWorld objs g) self (mkSerial true out [] ok)))
        = inl NoResponse).
Proof.
  split; [reflexivity |]. split; [reflexivity |]. split; [reflexivity |].
  intros objs g self out ok. unfold get_response, bind, readline.
  simpl. rewrite Nat.eqb_refl. reflexivity.
Qed.

(** ** Facts about the [bytes] operations *)

Lemma byte_eqb_eq (x y : byte) : Byte.eqb x y = true <-> x = y.
Proof.
  split; [apply Byte.byte_dec_bl | apply Byte.byte_dec_lb].
Qed.

Lemma byte_eqb_neq (x y : byte) : Byte.eqb x y = false <-> x <> y.
Proof.
  split; intros H.
  - intros E. apply byte_eqb_eq in E. congruence.
  - destruct (Byte.eqb x y) eqn:E; [apply byte_eqb_eq in E; contradiction | reflexivity].
Qed.

Lemma bytes_eqb_eq (x y : bytes) : bytes_eqb x y = true <-> x = y.
Proof.
  unfold bytes_eqb. destruct (list_eq_dec Byte.byte_eq_dec x y); split; congruence.
Qed.

Lemma mem_In (c : byte) (chars : bytes) : mem c chars = true <-> In c chars.
Proof.
  unfold mem. rewrite existsb_exists. split.
  - intros [y [Hy E]]. apply byte_eqb_eq in E. subst. exact Hy.
  - intros H. exists c. split; [exact H | apply byte_eqb_eq; reflexivity].
Qed.

Lemma split_not_nil (sep : byte) (x : bytes) : split sep x <> [].
Proof.
  destruct x as [| c x]; simpl; [discriminate |].
  destruct (Byte.eqb c sep); [discriminate |].
  destruct (split sep x); discriminate.
Qed.

Lemma split_without_sep (sep : byte) (x : bytes) :
  ~ In sep x -> split sep x = [x].
Proof.
  induction x as [| c x IH]; simpl; intros H; [reflexivity |].
  destruct (Byte.eqb c sep) eqn:E.
  - apply byte_eqb_eq in E. subst. tauto.
  - rewrite IH by tauto. reflexivity.
Qed.

Lemma split_app_sep (sep : byte) (x y : bytes) :
  ~ In sep x -> split sep (x ++ sep :: y) = x :: split sep y.
Proof.
  induction x as [| c x IH]; simpl; intros H.
  - rewrite (proj2 (byte_eqb_eq sep sep) eq_refl). reflexivity.
  - destruct (Byte.eqb c sep) eqn:E.
    + apply byte_eqb_eq in E. subst. tauto.
    + rewrite IH by tauto. reflexivity.
Qed.

Lemma split_bjoin (sep : byte) (fs : list bytes) :
  fs <> [] -> Forall (fun f => ~ In sep f) fs -> split sep (bjoin [sep] fs) = fs.
Proof.
  induction fs as [| f fs IH]; intros Hne Hall; [congruence |].
  inversion Hall as [| ? ? Hf Hfs]; subst.
  destruct fs as [| g fs].
  - simpl. apply split_without_sep. exact Hf.
  - change (bjoin [sep] (f :: g :: fs)) with (f ++ sep :: bjoin [sep] (g :: fs)).
    rewrite split_app_sep by exact Hf.
    rewrite IH; [reflexivity | discriminate | exact Hfs].
Qed.

Lemma split1_without_sep (sep : byte) (x : bytes) :
  ~ In sep x -> split1 sep x = [x].
Proof.
  induction x as [| c x IH]; simpl; intros H; [reflexivity |].
  destruct (Byte.eqb c sep) eqn:E.
  - apply byte_eqb_eq in E. subst. tauto.
  - rewrite IH by tauto. reflexivity.
Qed.

Lemma split1_app_sep (sep : byte) (x y : bytes) :
  ~ In sep x -> split1 sep (x ++ sep :: y) = [x; y].
Proof.
  induction x as [| c x IH]; simpl; intros H.
  - rewrite (proj2 (byte_eqb_eq sep sep) eq_refl). reflexivity.
  - destruct (Byte.eqb c sep) eqn:E.
    + apply byte_eqb_eq in E. subst. tauto.
    + rewrite IH by tauto. reflexivity.
Qed.

(** A line either has no separator, or is cut at its first one. *)
Lemma split1_cases (sep : byte) (x : bytes) :
  (~ In sep x /\ split1 sep x = [x])
  \/ (exists h t, x = h ++ sep :: t /\ ~ In sep h /\ split1 sep x = [h; t]).
Proof.
  induction x as [| c x IH].
  - left. split; [intros [] | reflexivity].
  - destruct (Byte.eqb c sep) eqn:E.
    + right. apply byte_eqb_eq in E. subst c. exists [], x.
      repeat split; [intros [] |].
      simpl. rewrite (proj2 (byte_eqb_eq sep sep) eq_refl). reflexivity.
    + apply byte_eqb_neq in E.
      destruct IH as [[Hn Hs] | [h [t [Hx [Hn Hs]]]]].
      * left. split; [simpl; intros [|]; [congruence | tauto] |].
        apply split1_without_sep. simpl; intros [|]; [congruence | tauto].
      * right. exists (c :: h), t. subst x. repeat split.
        -- simpl; intros [|]; [congruence | tauto].
        -- apply (split1_app_sep sep (c :: h) t).
           simpl; intros [|]; [congruence | tauto].
Qed.

Lemma rstrip_app_stripped (chars x t : bytes) :
  Forall (fun c => mem c chars = true) t ->
  rstrip chars (x ++ t) = rstrip chars x.
Proof.
  intros Ht.
  assert (Hnil : rstrip chars t = []).
  { induction Ht as [| c t Hc _ IH]; simpl; [reflexivity |].
    rewrite IH, Hc. reflexivity. }
  induction x as [| c x IH]; simpl; [exact Hnil |].
  rewrite IH. reflexivity.
Qed.

(** What [rstrip] leaves does not end in a byte of [chars]. *)
Lemma rstrip_last (chars x y : bytes) (c : byte) :
  rstrip chars x = y ++ [c] -> mem c chars = false.
Proof.
  revert y. induction x as [| a x IH]; simpl; intros y H.
  - destruct y; discriminate.
  - destruct (rstrip chars x) as [| r rs] eqn:E.
    + destruct (mem a chars) eqn:Ea.
      * destruct y; discriminate.
      * destruct y as [| y0 [| y1 y]]; simpl in H; try discriminate.
        injection H as ->. exact Ea.
    + destruct y as [| y0 y]; simpl in H.
      * discriminate.
      * injection H as _ H. exact (IH y H).
Qed.

(** [rstrip] removes a suffix made of bytes of [chars]. *)
Lemma rstrip_suffix (chars x : bytes) :
  exists t, x = rstrip chars x ++ t /\ Forall (fun c => mem c chars = true) t.
Proof.
  induction x as [| a x [t [Hx Ht]]]; simpl.
  - exists []. split; [reflexivity | constructor].
  - destruct (rstrip chars x) as [| r rs] eqn:E.
    + destruct (mem a chars) eqn:Ea.
      * exists (a :: x). split; [reflexivity |].
        simpl in Hx. subst t. constructor; assumption.
      * exists x. split; [reflexivity |]. simpl in Hx. subst t. exact Ht.
    + exists t. split; [| exact Ht]. simpl. f_equal. exact Hx.
Qed.

Lemma rstrip_fixed (chars x : bytes) :
  (forall y c, x = y ++ [c] -> mem c chars = false) -> rstrip chars x = x.
Proof.
  induction x as [| a x IH]; simpl; intros H; [reflexivity |].
  destruct x as [| a' x].
  - simpl. rewrite (H [] a eq_refl). reflexivity.
  - rewrite IH.
    + reflexivity.
    + intros y c E. apply (H (a :: y) c). simpl. f_equal. exact E.
Qed.

(** ** Decoding well-formed replies *)

Lemma decode_all_Forall2 (ps : list bytes) (strs : list pystr) :
  Forall2 (fun p s => decode_ascii p = Some s) ps strs ->
  decode_all ps = inr strs.
Proof.
  induction 1 as [| p s ps strs Hp _ IH]; simpl; [reflexivity |].
  rewrite Hp, IH. reflexivity.
Qed.

Lemma header_two_fields (cs : bytes) (c : Z) :
  ~ In COMMA cs -> py_int cs = Some c ->
  _get_response_header (b "%R1P" ++ COMMA :: cs) = inr (c, None).
Proof.
  intros Hcs Hc. unfold _get_response_header.
  rewrite split_app_sep by (vm_compute; intuition discriminate).
  rewrite split_without_sep by exact Hcs.
  cbn [rbind].
  rewrite (proj2 (bytes_eqb_eq _ _) eq_refl). cbn [negb rbind].
  unfold int_of. rewrite Hc. reflexivity.
Qed.

Lemma header_three_fields (cs ts : bytes) (c t : Z) :
  ~ In COMMA cs -> ~ In COMMA ts -> py_int cs = Some c -> py_int ts = Some t ->
  _get_response_header (b "%R1P" ++ COMMA :: cs ++ COMMA :: ts) = inr (c, Some t).
Proof.
  intros Hcs Hts Hc Ht. unfold _get_response_header.
  rewrite split_app_sep by (vm_compute; intuition discriminate).
  rewrite split_app_sep by exact Hcs.
  rewrite split_without_sep by exact Hts.
  cbn [rbind].
  rewrite (proj2 (bytes_eqb_eq _ _) eq_refl). cbn [negb rbind].
  unfold int_of. rewrite Ht. cbn [rbind]. rewrite Hc. reflexivity.
Qed.

Lemma CRLF_stripped : Forall (fun c => mem c CRLF = true) CRLF.
Proof. repeat constructor. Qed.

Lemma parameters_of_fields (rs : bytes) (ps : list bytes) (r : Z) (strs : list pystr) :
  Forall (fun f => ~ In COMMA f) (rs :: ps) ->
  rstrip CRLF (bjoin [COMMA] (rs :: ps)) = bjoin [COMMA] (rs :: ps) ->
  py_int rs = Some r ->
  Forall2 (fun p s => decode_ascii p = Some s) ps strs ->
  _get_response_parameters (bjoin [COMMA] (rs :: ps) ++ CRLF) = inr (r, strs).
Proof.
  intros Hno Hfix Hr Hps. unfold _get_response_parameters.
  change (encode_ascii TERMINATION_STRING) with (Some CRLF). cbv iota beta.
  rewrite rstrip_app_stripped by exact CRLF_stripped.
  rewrite Hfix, split_bjoin by (discriminate || exact Hno).
  rewrite (decode_all_Forall2 _ _ Hps). cbn [rbind].
  unfold int_of. rewrite Hr. reflexivity.
Qed.

Lemma decode_cut (header body : bytes) :
  ~ In COLON header ->
  decode (header ++ COLON :: body) =
    rbind (_get_response_header header)
      (fun '(communication_return_code, transaction_id) =>
         rbind (_get_response_parameters body)
           (fun '(rpc_return_code, parameters) =>
              inr (mkReply rpc_return_code parameters transaction_id
                     communication_return_code))).
Proof.
  intros H. unfold decode.
  rewrite (split1_app_sep COLON header body H).
  destruct (header ++ COLON :: body) eqn:E; [| reflexivity].
  destruct header; discriminate.
Qed.

(** C3: the two replies of the specification decode to the stated tuples,
    and so does every reply of either shape: with a header of three fields
    the third one, read as an integer, is the transaction id; with a
    header of two fields there is none; after the colon come the RPC
    status, read as an integer, and the remaining comma-separated fields as
    ASCII text. *)
Theorem decode_reply_fields :
  decode (b "%R1P,0,5:0,2,TPS1200" ++ CRLF)
    = inr (mkReply 0 [u "2"; u "TPS1200"] (Some 5) 0)
  /\ decode (b "%R1P,0:0" ++ CRLF) = inr (mkReply 0 [] None 0)
  /\ (forall (cs ts rs : bytes) (ps : list bytes) (c t r : Z) (strs : list pystr),
        ~ In COMMA cs -> ~ In COLON cs -> ~ In COMMA ts -> ~ In COLON ts ->
        Forall (fun f => ~ In COMMA f) (rs :: ps) ->
        rstrip CRLF (bjoin [COMMA] (rs :: ps)) = bjoin [COMMA] (rs :: ps) ->
        py_int cs = Some c -> py_int ts = Some t -> py_int rs = Some r ->
        Forall2 (fun p s => decode_ascii p = Some s) ps strs ->
        decode (b "%R1P" ++ COMMA :: cs ++ COMMA :: ts ++ COLON
                  :: bjoin [COMMA] (rs :: ps) ++ CRLF)
          = inr (mkReply r strs (Some t) c))
  /\ (forall (cs rs : bytes) (ps : list bytes) (c r : Z) (strs : list pystr),
        ~ In COMMA cs -> ~ In COLON cs ->
        Forall (fun f => ~ In COMMA f) (rs :: ps) ->
        rstrip CRLF (bjoin [COMMA] (rs :: ps)) = bjoin [COMMA] (rs :: ps) ->
        py_int cs = Some c -> py_int rs = Some r ->
        Forall2 (fun p s => decode_ascii p = Some s) ps strs ->
        decode (b "%R1P" ++ COMMA :: cs ++ COLON
                  :: bjoin [COMMA] (rs :: ps) ++ CRLF)
          = inr (mkReply r strs None c)).
Proof.
  split; [reflexivity |]. split; [reflexivity |]. split.
  - intros cs ts rs ps c t r strs Hcs Hcs' Hts Hts' Hno Hfix Hc Ht Hr Hps.
    assert (Hh : ~ In COLON (b "%R1P" ++ COMMA :: cs ++ COMMA :: ts)).
    { rewrite in_app_iff. simpl. rewrite in_app_iff. simpl.
      unfold COLON, COMMA in *. intuition discriminate. }
    set (body := bjoin [COMMA] (rs :: ps)) in *.
    replace (b "%R1P" ++ COMMA :: cs ++ COMMA :: ts ++ COLON :: body ++ CRLF)
      with ((b "%R1P" ++ COMMA :: cs ++ COMMA :: ts) ++ COLON :: body ++ CRLF)
      by (repeat (rewrite <- app_assoc || rewrite <- app_comm_cons); reflexivity).
    rewrite (decode_cut _ _ Hh).
    rewrite (header_three_fields cs ts c t) by assumption. cbn [rbind].
    subst body.
    rewrite (parameters_of_fields rs ps r strs) by assumption. reflexivity.
  - intros cs rs ps c r strs Hcs Hcs' Hno Hfix Hc Hr Hps.
    assert (Hh : ~ In COLON (b "%R1P" ++ COMMA :: cs)).
    { rewrite in_app_iff. simpl.
      unfold COLON, COMMA in *. intuition discriminate. }
    set (body := bjoin [COMMA] (rs :: ps)) in *.
    replace (b "%R1P" ++ COMMA :: cs ++ COLON :: body ++ CRLF)
      with ((b "%R1P" ++ COMMA :: cs) ++ COLON :: body ++ CRLF)
      by (repeat (rewrite <- app_assoc || rewrite <- app_comm_cons); reflexivity).
    rewrite (decode_cut _ _ Hh).
    rewrite (header_two_fields cs c) by assumption. cbn [rbind].
    subst body.
    rewrite (parameters_of_fields rs ps r strs) by assumption. reflexivity.
Qed.

(** ** One exchange *)

Lemma update_same (w : world) (r : ref) (s : Serial) : objects (update w r s) r = s.
Proof. unfold update. simpl. rewrite Nat.eqb_refl. reflexivity. Qed.

Lemma update_other (w : world) (r x : ref) (s : Serial) :
  x <> r -> objects (update w r s) x = objects w x.
Proof.
  intros H. unfold update. simpl.
  destruct (Nat.eqb_spec x r); [contradiction | reflexivity].
Qed.

Lemma exchange_only_refl (self : ref) (w : world) : exchange_only self w w.
Proof. repeat split. Qed.

Lemma exchange_only_trans (self : ref) (w1 w2 w3 : world) :
  exchange_only self w1 w2 -> exchange_only self w2 w3 -> exchange_only self w1 w3.
Proof.
  intros (T1 & O1 & K1 & F1) (T2 & O2 & K2 & F2). repeat split; try congruence.
  intros x Hx. rewrite F2, F1 by exact Hx. reflexivity.
Qed.

Lemma write_exchange_only (self : ref) (data : bytes) (w : world) :
  exchange_only self w (snd (write self data w)).
Proof.
  unfold write.
  destruct (is_open (objects w self)) eqn:O; simpl; [| apply exchange_only_refl].
  destruct (write_ok (objects w self)) eqn:K; simpl; [| apply exchange_only_refl].
  unfold exchange_only. rewrite update_same. simpl.
  split; [reflexivity |]. split; [congruence |]. split; [congruence |].
  intros x Hx. apply update_other. exact Hx.
Qed.

Lemma readline_exchange_only (self : ref) (w : world) :
  exchange_only self w (snd (readline self w)).
Proof.
  unfold readline.
  destruct (is_open (objects w self)) eqn:O; simpl; [| apply exchange_only_refl].
  destruct (take_line (incoming (objects w self))) as [line rest]. simpl.
  unfold exchange_only. rewrite update_same. simpl.
  split; [reflexivity |]. split; [congruence |]. split; [reflexivity |].
  intros x Hx. apply update_other. exact Hx.
Qed.

Lemma send_request_exchange_only {V : Type} `{Str V} (self : ref)
    (rpc_code : Z) (params : list V) (tid : option Z) (w : world) :
  exchange_only self w (snd (send_request self rpc_code params tid w)).
Proof.
  unfold send_request, bind, lift.
  destruct (request_string rpc_code params tid) as [e | req];
    [apply exchange_only_refl | apply write_exchange_only].
Qed.

Lemma get_response_exchange_only (self : ref) (w : world) :
  exchange_only self w (snd (get_response self w)).
Proof.
  unfold get_response, bind, lift.
  pose proof (readline_exchange_only self w) as H.
  destruct (readline self w) as [[e | line] w1]; exact H.
Qed.

Lemma execute_exchange_only {V : Type} `{Str V} (self : ref)
    (rpc_code : Z) (params : list V) (tid : option Z) (w : world) :
  exchange_only self w (snd (execute self rpc_code params tid w)).
Proof.
  unfold execute, bind.
  pose proof (send_request_exchange_only self rpc_code params tid w) as H1.
  destruct (send_request self rpc_code params tid w) as [[e | []] w1]; [exact H1 |].
  pose proof (get_response_exchange_only self w1) as H2.
  destruct (get_response self w1) as [[e | r] w2];
    [exact (exchange_only_trans _ _ _ _ H1 H2) |].
  simpl in H1, H2.
  destruct (negb (communication_return_code r =? 0));
    [exact (exchange_only_trans _ _ _ _ H1 H2) |].
  destruct (negb (rpc_return_code r =? 0));
    exact (exchange_only_trans _ _ _ _ H1 H2).
Qed.

(** What a successful exchange has put on the link. *)
Lemma execute_sent {V : Type} `{Str V} (self : ref)
    (rpc_code : Z) (params : list V) (tid : option Z) (w w' : world) (r : reply) :
  execute self rpc_code params tid w = (inr r, w') ->
  exists req, request_string rpc_code params tid = inr req
              /\ sent (objects w' self) = sent (objects w self) ++ req.
Proof.
  unfold execute, send_request, get_response, bind, lift.
  destruct (request_string rpc_code params tid) as [e | req]; [discriminate |].
  unfold write.
  destruct (is_open (objects w self)) eqn:O; simpl; [| discriminate].
  destruct (write_ok (objects w self)) eqn:K; simpl; [| discriminate].
  unfold readline. rewrite update_same. simpl.
  destruct (take_line (incoming (objects w self))) as [line rest].
  destruct (decode line) as [e | r']; [discriminate |].
  intros E. exists req. split; [reflexivity |].
  destruct (negb (communication_return_code r' =? 0)); [discriminate |].
  destruct (negb (rpc_return_code r' =? 0)); [discriminate |].
  injection E as _ <-. rewrite update_same. reflexivity.
Qed.

(** What an exchange puts on a port that is open and accepts writes,
    however the exchange ends. *)
Lemma execute_writes {V : Type} `{Str V} (self : ref)
    (rpc_code : Z) (params : list V) (tid : option Z) (w : world) (req : bytes) :
  is_open (objects w self) = true -> write_ok (objects w self) = true ->
  request_string rpc_code params tid = inr req ->
  sent (objects (snd (execute self rpc_code params tid w)) self)
  = sent (objects w self) ++ req.
Proof.
  intros O K Q. unfold execute, send_request, get_response, bind, lift.
  rewrite Q. unfold write. rewrite O, K. cbn [negb].
  unfold readline. rewrite update_same. cbn [is_open negb incoming sent write_ok].
  destruct (take_line (incoming (objects w self))) as [line rest].
  destruct (decode line) as [e | r]; cbn [snd];
    [rewrite update_same; reflexivity |].
  unfold raise, ret.
  destruct (negb (communication_return_code r =? 0)); cbn [snd];
    [rewrite update_same; reflexivity |].
  destruct (negb (rpc_return_code r =? 0)); cbn [snd]; rewrite update_same; reflexivity.
Qed.

(** ** Outcome of [execute] *)

(** C2: once a reply has been decoded, [execute] looks at the communication
    status first: if it is not zero the [ConnectionError] carrying it is
    raised, whatever the RPC status; otherwise a non-zero RPC status raises
    the [ValueError] carrying it; otherwise the decoded tuple is returned,
    both statuses being zero. *)
Theorem execute_classifies_reply {V : Type} `{Str V} (self : ref)
    (rpc_code : Z) (params : list V) (tid : option Z) (w w1 w2 : world) (r : reply) :
  send_request self rpc_code params tid w = (inr tt, w1) ->
  get_response self w1 = (inr r, w2) ->
  (communication_return_code r <> 0 ->
     execute self rpc_code params tid w
       = (inl (CommunicationCode (communication_return_code r)), w2)
     /\ exn_cls (CommunicationCode (communication_return_code r)) = ConnectionError
     /\ isinstance (CommunicationCode (communication_return_code r)) ValueError = false)
  /\ (communication_return_code r = 0 -> rpc_return_code r <> 0 ->
        execute self rpc_code params tid w = (inl (RpcCode (rpc_return_code r)), w2)
        /\ exn_cls (RpcCode (rpc_return_code r)) = ValueError)
  /\ (communication_return_code r = 0 -> rpc_return_code r = 0 ->
        execute self rpc_code params tid w = (inr r, w2)
        /\ r = mkReply 0 (parameters r) (transaction_id r) 0).
Proof.
  intros Hsend Hget. unfold execute, bind. rewrite Hsend, Hget.
  repeat split.
  - destruct (Z.eqb_spec (communication_return_code r) 0); [contradiction | reflexivity].
  - rewrite H0. simpl.
    destruct (Z.eqb_spec (rpc_return_code r) 0); [contradiction | reflexivity].
  - rewrite H0, H1. reflexivity.
  - destruct r as [rc ps t cc]. simpl in *. subst. reflexivity.
Qed.

(** The two ways in which building the frame raises. *)
Lemma str_of_error {V : Type} `{Str V} (value : V) (e : exn) :
  str_of value = inl e -> e = StrDigits.
Proof. unfold str_of. destruct (str value); congruence. Qed.

Lemma str_each_error {V : Type} `{Str V} (values : list V) (e : exn) :
  str_each values = inl e -> e = StrDigits.
Proof.
  induction values as [| v values IH]; cbn [str_each]; [discriminate |].
  destruct (str_of v) as [e1 | s] eqn:E1; cbn [rbind].
  - intros E. injection E as <-. exact (str_of_error _ _ E1).
  - destruct (str_each values) as [e2 | r]; cbn [rbind]; [| discriminate].
    intros E. injection E as <-. apply IH. reflexivity.
Qed.

Lemma request_string_error {V : Type} `{Str V}
    (rpc_code : Z) (params : list V) (tid : option Z) (e : exn) :
  request_string rpc_code params tid = inl e -> e = StrDigits \/ e = AsciiEncode.
Proof.
  unfold request_string.
  destruct (match tid with None => inr [] | Some t => str_of t end)
    as [e1 | tr] eqn:E1; cbn [rbind].
  - intros E. injection E as <-. left.
    destruct tid as [t |]; [exact (str_of_error _ _ E1) | discriminate].
  - destruct (str_each params) as [e2 | strs] eqn:E2; cbn [rbind].
    + intros E. injection E as <-. left. exact (str_each_error _ _ E2).
    + destruct (str_of rpc_code) as [e3 | code] eqn:E3; cbn [rbind].
      * intros E. injection E as <-. left. exact (str_of_error _ _ E3).
      * destruct (encode_ascii _); [discriminate |].
        intros E. injection E as <-. right. reflexivity.
Qed.

(** C7, as the program has it: on a session that is not open [execute]
    raises before anything is written and leaves the world as it was.  The
    frame is built first: an integer beyond the digit limit raises the
    [ValueError] of [str], a parameter without an ASCII rendering raises
    [UnicodeEncodeError]; otherwise the port refuses the write with its
    own error for closed ports. *)
Theorem execute_on_closed_session {V : Type} `{Str V} (self : ref)
    (rpc_code : Z) (params : list V) (tid : option Z) (w : world) :
  is_open (objects w self) = false ->
  exists e,
    execute self rpc_code params tid w = (inl e, w)
    /\ ((exists req, request_string rpc_code params tid = inr req)
          /\ e = PortNotOpen /\ exn_cls e = PortNotOpenError
        \/ request_string rpc_code params tid = inl StrDigits
          /\ e = StrDigits /\ exn_cls e = ValueError
        \/ request_string rpc_code params tid = inl AsciiEncode
          /\ e = AsciiEncode /\ exn_cls e = UnicodeEncodeError).
Proof.
  intros Hclosed. unfold execute, send_request, bind, lift.
  destruct (request_string rpc_code params tid) as [e | req] eqn:Q.
  - exists e. split; [reflexivity |]. right.
    destruct (request_string_error _ _ _ _ Q) as [-> | ->];
      [left | right]; repeat split.
  - exists PortNotOpen. unfold write. rewrite Hclosed. simpl.
    split; [reflexivity |]. left. split; [exists req; reflexivity |]. split; reflexivity.
Qed.

(** ** Leaving the [with] block *)

(** C1, as the program has it: for an open session that is the object
    bound to the global [tps], [__exit__] runs the exchange 2008 with
    [0, 0] and then the exchange 2020 with [2].  The first of them that
    raises ends [__exit__] with its exception and the port still open;
    only when both return is the port closed, both frames having been
    written in this order. *)
Theorem exit_closes_after_both_exchanges (self : ref) (w : world) :
  tps w = Some self -> is_open (objects w self) = true ->
  let first := execute self 2008 [0; 0] None w in
  let second := execute self 2020 [2] None (snd first) in
  match fst first, fst second with
  | inl e, _ =>
      __exit__ self w = (inl e, snd first)
      /\ is_open (objects (snd first) self) = true
  | inr _, inl e =>
      __exit__ self w = (inl e, snd second)
      /\ is_open (objects (snd second) self) = true
  | inr _, inr _ =>
      fst (__exit__ self w) = inr tt
      /\ is_open (objects (snd (__exit__ self w)) self) = false
      /\ sent (objects (snd (__exit__ self w)) self)
         = sent (objects w self) ++ (b "%R1Q,2008:0,0" ++ CRLF) ++ (b "%R1Q,2020:2" ++ CRLF)
  end.
Proof.
  intros Htps Hopen first second.
  pose proof (execute_exchange_only self 2008 [0; 0] None w) as X1.
  pose proof (execute_exchange_only self 2020 [2] None (snd first)) as X2.
  fold first in X1. fold second in X2.
  destruct X1 as (T1 & O1 & _ & _). destruct X2 as (T2 & O2 & _ & _).
  unfold __exit__, bind. fold first.
  destruct first as [[e1 | r1] w1] eqn:E1; simpl in *.
  - split; [reflexivity | congruence].
  - unfold global_tps. rewrite T1, Htps. fold second.
    destruct second as [[e2 | r2] w2] eqn:E2; simpl in *.
    + split; [reflexivity | congruence].
    + split; [reflexivity |]. unfold close. simpl. rewrite Nat.eqb_refl. simpl.
      split; [reflexivity |].
      destruct (execute_sent _ _ _ _ _ _ _ E1) as [q1 [Q1 S1]].
      destruct (execute_sent _ _ _ _ _ _ _ E2) as [q2 [Q2 S2]].
      rewrite S2, S1. vm_compute in Q1. vm_compute in Q2.
      injection Q1 as <-. injection Q2 as <-. rewrite <- app_assoc. reflexivity.
Qed.

(** C9, as the program has it: when the exchange 2008 on the session being
    left has returned, the exchange 2020 is run on whatever the global
    [tps] holds.  With the global unbound [__exit__] raises [NameError] and
    the port stays open.  With the global bound to another object the
    exchange 2020 takes place there and decides how [__exit__] ends; the
    frame 2020 is never written to the session being left, and it is
    written to the other port when that one is open and accepts writes. *)
Theorem exit_second_exchange_on_global (self : ref) (w w1 : world) (r1 : reply) :
  execute self 2008 [0; 0] None w = (inr r1, w1) ->
  (tps w = None ->
     __exit__ self w = (inl (GlobalUnbound "tps"), w1)
     /\ exn_cls (GlobalUnbound "tps") = NameError
     /\ is_open (objects w1 self) = is_open (objects w self))
  /\ (forall other, tps w = Some other -> other <> self ->
        let second := execute other 2020 [2] None w1 in
        fst (__exit__ self w)
          = match fst second with inl e => inl e | inr _ => inr tt end
        /\ sent (objects (snd (__exit__ self w)) self)
           = sent (objects w self) ++ (b "%R1Q,2008:0,0" ++ CRLF)
        /\ (is_open (objects w1 other) = true -> write_ok (objects w1 other) = true ->
            sent (objects (snd (__exit__ self w)) other)
            = sent (objects w1 other) ++ (b "%R1Q,2020:2" ++ CRLF))).
Proof.
  intros E1.
  pose proof (execute_exchange_only self 2008 [0; 0] None w) as X1.
  rewrite E1 in X1. destruct X1 as (T1 & O1 & _ & _). simpl in T1, O1.
  destruct (execute_sent _ _ _ _ _ _ _ E1) as [q1 [Q1 S1]].
  vm_compute in Q1. injection Q1 as <-.
  split.
  - intros Htps. unfold __exit__, bind. rewrite E1. unfold global_tps.
    rewrite T1, Htps. repeat split. exact O1.
  - intros other Htps Hneq second.
    pose proof (execute_exchange_only other 2020 [2] None w1) as X2.
    pose proof (execute_writes other 2020 [2] None w1 (b "%R1Q,2020:2" ++ CRLF)) as W2.
    fold second in X2, W2. destruct X2 as (_ & _ & _ & F2).
    unfold __exit__, bind. rewrite E1. unfold global_tps. rewrite T1, Htps.
    fold second.
    assert (Hself : objects (snd second) self = objects w1 self)
      by (apply F2; congruence).
    destruct second as [[e2 | r2] w2]; simpl in *.
    + split; [reflexivity |]. split; [rewrite Hself; exact S1 |].
      intros Ho Hk. apply W2; [exact Ho | exact Hk | reflexivity].
    + split; [reflexivity |]. unfold close. simpl. rewrite Nat.eqb_refl. simpl.
      split; [rewrite Hself; exact S1 |].
      intros Ho Hk. destruct (Nat.eqb_spec other self); [contradiction |].
      apply W2; [exact Ho | exact Hk | reflexivity].
Qed.

(** ** Building the request frame *)

Lemma encode_ascii_app (x y : pystr) (bx bY : bytes) :
  encode_ascii x = Some bx -> encode_ascii y = Some bY ->
  encode_ascii (x ++ y) = Some (bx ++ bY).
Proof.
  revert bx. induction x as [| c x IH]; simpl; intros bx Hx Hy.
  - injection Hx as <-. exact Hy.
  - destruct (c <? 128)%N; [| discriminate].
    destruct (Byte.of_N c) as [c' |]; [| discriminate].
    destruct (encode_ascii x) as [r |]; [| discriminate].
    injection Hx as <-. rewrite (IH r eq_refl Hy). reflexivity.
Qed.

Lemma encode_ascii_None (s : pystr) :
  encode_ascii s = None <-> Exists non_ascii s.
Proof.
  unfold non_ascii. induction s as [| c s IH]; simpl.
  - split; [discriminate | intros H; inversion H].
  - destruct (N.ltb_spec c 128) as [Hlt | Hge].
    + destruct (Byte.of_N c) as [c' |] eqn:E.
      * destruct (encode_ascii s) as [r |].
        -- split; [discriminate |]. intros H. inversion H; subst; [lia |].
           apply IH in H1. discriminate.
        -- split; [intros _; right; apply IH; reflexivity | reflexivity].
      * apply Byte.of_N_None_iff in E. lia.
    + split; [intros _; left; exact Hge | reflexivity].
Qed.

Lemma encode_ascii_bytes (x : bytes) :
  Forall (fun c => (Byte.to_N c < 128)%N) x -> encode_ascii (map Byte.to_N x) = Some x.
Proof.
  induction 1 as [| c x Hc _ IH]; simpl; [reflexivity |].
  destruct (N.ltb_spec (Byte.to_N c) 128); [| lia].
  rewrite Byte.of_to_N, IH. reflexivity.
Qed.

Lemma digits_ascii (d : Decimal.uint) :
  Forall (fun c => (Byte.to_N c < 128)%N) (b (NilEmpty.string_of_uint d)).
Proof.
  induction d; simpl; constructor; (reflexivity || assumption).
Qed.

Lemma decimal_ascii (n : Z) : Forall (fun c => (Byte.to_N c < 128)%N) (decimal n).
Proof.
  unfold decimal.
  assert (U : forall d, Forall (fun c => (Byte.to_N c < 128)%N) (b (NilZero.string_of_uint d))).
  { intros d. destruct d; try apply digits_ascii. repeat constructor. }
  destruct (Z.to_int n) as [d | d]; simpl.
  - apply U.
  - constructor; [reflexivity | apply U].
Qed.

Lemma digit_count_app (x y : bytes) :
  digit_count (x ++ y) = digit_count x + digit_count y.
Proof. unfold digit_count. rewrite filter_app, length_app. lia. Qed.

Lemma digit_count_nonneg (x : bytes) : 0 <= digit_count x.
Proof. unfold digit_count. lia. Qed.

(** [str] of an integer returns exactly within the digit limit, and then
    the decimal numeral. *)
Lemma str_int_Some (n : Z) (s : pystr) :
  str_int n = Some s <-> fits n /\ s = map Byte.to_N (decimal n).
Proof.
  unfold str_int, fits.
  destruct (Z.ltb_spec MAX_STR_DIGITS (digit_count (decimal n))) as [Hlt | Hle].
  - split; [discriminate | intros [Hf _]; lia].
  - split.
    + intros E. injection E as <-. split; [exact Hle | reflexivity].
    + intros [_ ->]. reflexivity.
Qed.

Lemma str_int_None (n : Z) : str_int n = None <-> ~ fits n.
Proof.
  unfold str_int, fits.
  destruct (Z.ltb_spec MAX_STR_DIGITS (digit_count (decimal n))) as [Hlt | Hle].
  - split; [intros _; lia | reflexivity].
  - split; [discriminate | intros Hn; elim Hn; exact Hle].
Qed.

Lemma str_int_fits (n : Z) : fits n -> str_int n = Some (map Byte.to_N (decimal n)).
Proof. intros Hf. apply str_int_Some. split; [exact Hf | reflexivity]. Qed.

Lemma encode_str_int (n : Z) (s : pystr) :
  str_int n = Some s -> encode_ascii s = Some (decimal n).
Proof.
  intros E. apply str_int_Some in E. destruct E as [_ ->].
  apply encode_ascii_bytes, decimal_ascii.
Qed.

Lemma encode_join (strs : list pystr) (ps : list bytes) :
  Forall2 (fun s x => encode_ascii s = Some x) strs ps ->
  encode_ascii (join (u ",") strs) = Some (bjoin [COMMA] ps).
Proof.
  induction 1 as [| s x strs ps Hs Hrest IH]; [reflexivity |].
  destruct Hrest as [| s' x' strs ps Hs' Hrest].
  - exact Hs.
  - change (encode_ascii (s ++ u "," ++ join (u ",") (s' :: strs))
            = Some (x ++ [COMMA] ++ bjoin [COMMA] (x' :: ps))).
    apply encode_ascii_app; [exact Hs |].
    apply encode_ascii_app; [reflexivity | exact IH].
Qed.

(** ** Renderings of the values of a request *)

Lemma str_each_cases {V : Type} `{Str V} (values : list V) :
  match str_each values with
  | inl e => e = StrDigits /\ exists v, In v values /\ str v = None
  | inr strs => Forall2 (fun v s => str v = Some s) values strs
  end.
Proof.
  induction values as [| v values IH]; cbn [str_each]; [constructor |].
  unfold str_of. destruct (str v) as [s |] eqn:E; cbn [rbind].
  - destruct (str_each values) as [e | strs]; cbn [rbind].
    + destruct IH as [-> [p [Hp Hn]]]. split; [reflexivity |].
      exists p. split; [right; exact Hp | exact Hn].
    + constructor; assumption.
  - split; [reflexivity |]. exists v. split; [left; reflexivity | exact E].
Qed.

Lemma str_each_ok {V : Type} `{Str V} (values : list V) (strs : list pystr) :
  Forall2 (fun v s => str v = Some s) values strs -> str_each values = inr strs.
Proof.
  induction 1 as [| v s values strs Hv _ IH]; cbn [str_each]; [reflexivity |].
  unfold str_of. rewrite Hv, IH. reflexivity.
Qed.

Lemma rendered_In {V : Type} `{Str V} (values : list V) (strs : list pystr) (v : V) :
  Forall2 (fun v s => str v = Some s) values strs -> In v values ->
  exists s, In s strs /\ str v = Some s.
Proof.
  induction 1 as [| v' s values strs Hv _ IH]; intros Hin; [destruct Hin |].
  destruct Hin as [-> | Hin].
  - exists s. split; [left; reflexivity | exact Hv].
  - destruct (IH Hin) as [s' [Hs' Hv']]. exists s'. split; [right; exact Hs' | exact Hv'].
Qed.

Lemma rendered_from {V : Type} `{Str V} (values : list V) (strs : list pystr) (s : pystr) :
  Forall2 (fun v s => str v = Some s) values strs -> In s strs ->
  exists v, In v values /\ str v = Some s.
Proof.
  induction 1 as [| v s' values strs Hv _ IH]; intros Hin; [destruct Hin |].
  destruct Hin as [-> | Hin].
  - exists v. split; [left; reflexivity | exact Hv].
  - destruct (IH Hin) as [v' [Hv' Hs']]. exists v'. split; [right; exact Hv' | exact Hs'].
Qed.

(** When every value is rendered, the request is the encoded frame. *)
Lemma request_string_rendered {V : Type} `{Str V}
    (rpc_code : Z) (params : list V) (tid : option Z)
    (code tr : pystr) (strs : list pystr) :
  str rpc_code = Some code ->
  match tid with Some t => str t = Some tr | None => tr = [] end ->
  Forall2 (fun p s => str p = Some s) params strs ->
  request_string rpc_code params tid
  = match encode_ascii
            (u "%R1Q," ++ code ++ tr ++ u ":" ++ join (u ",") strs
               ++ TERMINATION_STRING) with
    | Some request => inr request
    | None => inl AsciiEncode
    end.
Proof.
  intros Hc Ht Hs. unfold request_string.
  replace (match tid with None => inr [] | Some t => str_of t end)
    with (@inr exn pystr tr)
    by (destruct tid as [t |]; [unfold str_of | ]; rewrite Ht; reflexivity).
  cbn [rbind]. rewrite (str_each_ok _ _ Hs). cbn [rbind].
  unfold str_of. rewrite Hc. reflexivity.
Qed.

(** Either every value is rendered, or the request raises the error of
    [str]. *)
Lemma request_string_inv {V : Type} `{Str V}
    (rpc_code : Z) (params : list V) (tid : option Z) :
  (exists (code tr : pystr) (strs : list pystr),
      str rpc_code = Some code
      /\ match tid with Some t => str t = Some tr | None => tr = [] end
      /\ Forall2 (fun p s => str p = Some s) params strs)
  \/ (request_string rpc_code params tid = inl StrDigits
      /\ (str rpc_code = None
          \/ (exists t, tid = Some t /\ str t = None)
          \/ exists p, In p params /\ str p = None)).
Proof.
  unfold request_string.
  assert (Ht : (exists tr, match tid with None => inr [] | Some t => str_of t end
                           = @inr exn pystr tr
                           /\ match tid with Some t => str t = Some tr | None => tr = [] end)
               \/ (match tid with None => inr [] | Some t => str_of t end
                   = @inl exn pystr StrDigits
                   /\ exists t, tid = Some t /\ str t = None)).
  { destruct tid as [t |]; [| left; exists []; split; reflexivity].
    unfold str_of. destruct (str t) as [tr |] eqn:E.
    - left. exists tr. split; reflexivity.
    - right. split; [reflexivity |]. exists t. split; [reflexivity | exact E]. }
  destruct Ht as [[tr [-> Ht]] | [-> Ht]]; cbn [rbind]; [| right; auto].
  pose proof (str_each_cases params) as Hs.
  destruct (str_each params) as [e | strs]; cbn [rbind].
  - destruct Hs as [-> Hs]. right. auto.
  - unfold str_of. destruct (str rpc_code) as [code |] eqn:Hc; cbn [rbind].
    + left. exists code, tr, strs. auto.
    + right. auto.
Qed.

Lemma Exists_join (P : N -> Prop) (sep : pystr) (parts : list pystr) :
  ~ Exists P sep -> (Exists P (join sep parts) <-> Exists (Exists P) parts).
Proof.
  intros Hsep. induction parts as [| p parts IH].
  - simpl. split; intros H; inversion H.
  - destruct parts as [| q parts].
    + simpl. split; intros H; [left; exact H |].
      inversion H as [? ? Hp | ? ? Hn]; subst; [exact Hp | inversion Hn].
    + change (join sep (p :: q :: parts)) with (p ++ sep ++ join sep (q :: parts)).
      rewrite !Exists_app, IH. split.
      * intros [Hp | [Hs | Hq]]; [left; exact Hp | contradiction | right; exact Hq].
      * intros H. inversion H as [? ? Hp | ? ? Hq]; subst; [left; exact Hp | right; right; exact Hq].
Qed.

Lemma ascii_not_non_ascii (x : bytes) :
  Forall (fun c => (Byte.to_N c < 128)%N) x -> ~ Exists non_ascii (map Byte.to_N x).
Proof.
  intros H E. apply encode_ascii_None in E.
  rewrite (encode_ascii_bytes x H) in E. discriminate.
Qed.

(** ** Integers written and read back *)

Lemma int_digits_numeral (d : Decimal.uint) (acc : Z) :
  int_digits acc false (b (NilEmpty.string_of_uint d)) = Some (numeral_value acc d).
Proof.
  revert acc. induction d; intros acc; simpl; try reflexivity;
    unfold digit_value; simpl; rewrite IHd; f_equal; f_equal; lia.
Qed.

Lemma numeral_value_acc (d : Decimal.uint) (acc : positive) :
  numeral_value (Z.pos acc) d = Z.pos (Pos.of_uint_acc d acc).
Proof.
  revert acc.
  induction d; intros acc; cbn [numeral_value Pos.of_uint_acc]; try reflexivity;
    rewrite <- IHd; f_equal; lia.
Qed.

Lemma numeral_value_of_uint (d : Decimal.uint) :
  numeral_value 0 d = Z.of_N (Pos.of_uint d).
Proof.
  induction d; simpl; try reflexivity; try exact IHd;
    apply (numeral_value_acc d).
Qed.

Lemma digits_are_digits (d : Decimal.uint) :
  Forall is_digit (b (NilEmpty.string_of_uint d)).
Proof.
  induction d; simpl; constructor; (discriminate || assumption).
Qed.

Lemma rstrip_digits (x : bytes) :
  Forall is_digit x -> rstrip WHITESPACE x = x.
Proof.
  intros H. apply rstrip_fixed. intros y c ->.
  apply Forall_app in H. destruct H as [_ H]. inversion H as [| ? ? Hc _]; subst.
  destruct (mem c WHITESPACE) eqn:M; [| reflexivity].
  apply mem_In in M. simpl in M. unfold is_digit in Hc.
  repeat (destruct M as [<- | M]; [elim Hc; reflexivity |]). contradiction.
Qed.

Lemma digits_not_space (c : byte) : is_digit c -> mem c WHITESPACE = false.
Proof.
  intros Hc. destruct (mem c WHITESPACE) eqn:M; [| reflexivity].
  apply mem_In in M. simpl in M. unfold is_digit in Hc.
  repeat (destruct M as [<- | M]; [elim Hc; reflexivity |]). contradiction.
Qed.

Lemma py_int_digits (x : bytes) (n : Z) :
  Forall is_digit x -> digit_count x <= MAX_STR_DIGITS ->
  int_digits 0 true x = Some n ->
  py_int x = Some n /\ py_int (x2d :: x) = Some (- n).
Proof.
  intros Hall Hfit Hn.
  assert (Hlit : int_literal x = Some n).
  { unfold int_literal.
    destruct (Z.ltb_spec MAX_STR_DIGITS (digit_count x)); [lia | exact Hn]. }
  unfold py_int.
  change (lstrip WHITESPACE (x2d :: x)) with (x2d :: x). cbv iota.
  rewrite (rstrip_digits x Hall), Hlit. split; [| reflexivity].
  destruct x as [| c x]; [discriminate |].
  inversion Hall as [| ? ? Hc Hx]; subst.
  cbn [lstrip]. rewrite (digits_not_space c Hc).
  pose proof (rstrip_digits (c :: x) Hall) as Hr.
  destruct c; try (elim Hc; reflexivity); rewrite Hr; exact Hlit.
Qed.

(** What [str] writes for an integer, [int] reads back. *)
Lemma py_int_decimal (n : Z) : fits n -> py_int (decimal n) = Some n.
Proof.
  assert (Hu : forall p : positive,
             Forall is_digit (b (NilEmpty.string_of_uint (Pos.to_uint p)))
             /\ int_digits 0 true (b (NilEmpty.string_of_uint (Pos.to_uint p)))
                = Some (Z.pos p)).
  { intros p. split; [apply digits_are_digits |].
    pose proof (Unsigned.to_uint_nonnil p) as Hnil.
    pose proof (DecimalPos.Unsigned.of_to p) as Hp.
    pose proof (int_digits_numeral (Pos.to_uint p) 0) as Hv.
    rewrite numeral_value_of_uint, Hp in Hv. simpl in Hv.
    destruct (Pos.to_uint p); try congruence; exact Hv. }
  assert (Hz : forall p : positive,
             NilZero.string_of_uint (Pos.to_uint p)
             = NilEmpty.string_of_uint (Pos.to_uint p)).
  { intros p. pose proof (Unsigned.to_uint_nonnil p).
    destruct (Pos.to_uint p); try congruence; reflexivity. }
  unfold fits.
  destruct n as [| p | p]; unfold decimal; cbn [Z.to_int NilZero.string_of_int].
  - reflexivity.
  - rewrite Hz. intros Hf. destruct (Hu p) as [Ha Hv]. apply (py_int_digits _ _ Ha Hf Hv).
  - rewrite Hz. change (b (String "-" ?x)) with (x2d :: b x).
    intros Hf. destruct (Hu p) as [Ha Hv].
    apply (proj2 (py_int_digits _ _ Ha Hf Hv)).
Qed.

(** ** Numerals written one behind the other *)

Lemma numeral_value_app (u v : Decimal.uint) (acc : Z) :
  numeral_value acc (numeral_app u v) = numeral_value (numeral_value acc u) v.
Proof.
  revert acc. induction u; intros acc; cbn [numeral_app numeral_value];
    try reflexivity; apply IHu.
Qed.

Lemma numeral_value_shift (v : Decimal.uint) (acc : Z) :
  numeral_value acc v
  = acc * 10 ^ Z.of_nat (Decimal.nb_digits v) + numeral_value 0 v.
Proof.
  revert acc. induction v; intros acc; cbn [numeral_value Decimal.nb_digits];
    [rewrite Z.pow_0_r; lia | ..];
    rewrite Nat2Z.inj_succ, Z.pow_succ_r by lia;
    rewrite IHv; symmetry; rewrite IHv; ring.
Qed.

Lemma b_append (s t : string) : b (s ++ t)%string = b s ++ b t.
Proof.
  unfold b. induction s as [| a s IH]; [reflexivity |].
  cbn. f_equal. exact IH.
Qed.

Lemma digits_app (u v : Decimal.uint) :
  b (NilEmpty.string_of_uint (numeral_app u v))
  = b (NilEmpty.string_of_uint u) ++ b (NilEmpty.string_of_uint v).
Proof.
  induction u; cbn [numeral_app NilEmpty.string_of_uint]; try reflexivity;
    change (b (String ?a ?s)) with (byte_of_ascii a :: b s);
    cbn [app]; f_equal; exact IHu.
Qed.

Lemma digits_length (v : Decimal.uint) :
  List.length (b (NilEmpty.string_of_uint v)) = Decimal.nb_digits v.
Proof.
  induction v; cbn [NilEmpty.string_of_uint Decimal.nb_digits]; try reflexivity;
    change (b (String ?a ?s)) with (byte_of_ascii a :: b s);
    cbn [List.length]; f_equal; exact IHv.
Qed.

Lemma to_uint_normal (p : positive) : Decimal.unorm (Pos.to_uint p) = Pos.to_uint p.
Proof.
  pose proof (DecimalPos.Unsigned.to_of (Pos.to_uint p)) as H.
  rewrite DecimalPos.Unsigned.of_to in H. symmetry. exact H.
Qed.

(** A numeral that does not begin with [0] stays as it is when another one
    is written behind it and the whole is normalised. *)
Lemma numeral_app_normal (p : positive) (v : Decimal.uint) :
  Decimal.unorm (numeral_app (Pos.to_uint p) v) = numeral_app (Pos.to_uint p) v
  /\ numeral_app (Pos.to_uint p) v <> Decimal.Nil.
Proof.
  pose proof (to_uint_normal p) as Hn.
  pose proof (Unsigned.to_uint_nonnil p) as Hnil.
  pose proof (Unsigned.to_uint_nonzero p) as Hzero.
  destruct (Pos.to_uint p) as [| x | x | x | x | x | x | x | x | x | x];
    try congruence; try (split; [reflexivity | discriminate]).
  exfalso. unfold Decimal.unorm in Hn. cbn [Decimal.nzhead] in Hn.
  pose proof (nb_digits_nzhead x) as Hlen.
  destruct (Decimal.nzhead x) eqn:E; try congruence;
    rewrite Hn in Hlen; cbn [Decimal.nb_digits] in Hlen; lia.
Qed.

Lemma decimal_numeral (n : Z) :
  0 <= n -> decimal n = b (NilEmpty.string_of_uint (numeral_of n))
            /\ numeral_value 0 (numeral_of n) = n.
Proof.
  intros Hn. destruct n as [| p | p]; [split; reflexivity | | lia].
  unfold decimal, numeral_of. cbn [Z.to_int NilZero.string_of_int].
  pose proof (Unsigned.to_uint_nonnil p) as Hnil. split.
  - destruct (Pos.to_uint p); try congruence; reflexivity.
  - rewrite numeral_value_of_uint, DecimalPos.Unsigned.of_to. reflexivity.
Qed.

(** The numeral of [c] followed by the numeral of [t] is the numeral of
    another integer. *)
Lemma decimal_app (c t : Z) :
  0 < c -> 0 <= t ->
  decimal (c * 10 ^ Z.of_nat (List.length (decimal t)) + t) = decimal c ++ decimal t.
Proof.
  intros Hc Ht. destruct c as [| p | p]; try lia.
  destruct (decimal_numeral t Ht) as [Dt Vt].
  destruct (decimal_numeral (Z.pos p) ltac:(lia)) as [Dc Vc].
  cbn [numeral_of] in Dc, Vc.
  set (d := numeral_app (Pos.to_uint p) (numeral_of t)).
  destruct (numeral_app_normal p (numeral_of t)) as [Hnorm Hnil]. fold d in Hnorm, Hnil.
  assert (Hval : Z.of_int (Decimal.Pos d)
                 = Z.pos p * 10 ^ Z.of_nat (List.length (decimal t)) + t).
  { cbn [Z.of_int]. unfold Z.of_uint. rewrite <- numeral_value_of_uint.
    unfold d. rewrite numeral_value_app, numeral_value_shift, Vc, Vt.
    rewrite Dt, digits_length. reflexivity. }
  rewrite <- Hval. unfold decimal at 1.
  rewrite DecimalZ.to_of.
  assert (Hpos : Decimal.norm (Decimal.Pos d) = Decimal.Pos d).
  { cbn [Decimal.norm]. rewrite Hnorm. reflexivity. }
  rewrite Hpos. cbn [NilZero.string_of_int].
  assert (Hs : NilZero.string_of_uint d = NilEmpty.string_of_uint d)
    by (destruct d; try congruence; reflexivity).
  rewrite Hs. unfold d. rewrite digits_app, <- Dc, <- Dt. reflexivity.
Qed.

(** C4, as the program has it: when the RPC code and the transaction id
    have at most [MAX_STR_DIGITS] digits and [str] renders every parameter,
    the request is the ASCII text [%R1Q,], the decimal RPC code, the decimal
    transaction id right behind it when there is one, a colon, the
    renderings of the parameters separated by commas, and CR LF.  Building
    it raises [UnicodeEncodeError] exactly when every value is rendered and
    the rendering of some parameter has a character outside ASCII; it
    raises the [ValueError] of [str] exactly when the RPC code, the
    transaction id or a parameter is not rendered, which for an integer
    means more digits than the limit; it raises nothing else.  Within the
    limit the numerals are those that [int] reads back as the same
    integers. *)
Theorem request_string_frame {V : Type} `{Str V}
    (rpc_code : Z) (params : list V) (tid : option Z) :
  (forall (strs : list pystr) (ps : list bytes),
      fits rpc_code -> (forall t, tid = Some t -> fits t) ->
      Forall2 (fun p s => str p = Some s) params strs ->
      Forall2 (fun s x => encode_ascii s = Some x) strs ps ->
      request_string rpc_code params tid
      = inr (b "%R1Q," ++ decimal rpc_code
               ++ match tid with Some t => decimal t | None => [] end
               ++ [COLON] ++ bjoin [COMMA] ps ++ CRLF))
  /\ (request_string rpc_code params tid = inl AsciiEncode
      <-> fits rpc_code /\ (forall t, tid = Some t -> fits t)
          /\ (forall p, In p params -> str p <> None)
          /\ exists p s c, In p params /\ str p = Some s /\ In c s /\ non_ascii c)
  /\ (request_string rpc_code params tid = inl StrDigits
      <-> ~ fits rpc_code \/ (exists t, tid = Some t /\ ~ fits t)
          \/ exists p, In p params /\ str p = None)
  /\ (forall e, request_string rpc_code params tid = inl e ->
        e = AsciiEncode /\ exn_cls e = UnicodeEncodeError
        \/ e = StrDigits /\ exn_cls e = ValueError
           /\ isinstance e UnicodeEncodeError = false)
  /\ request_string 2008 [0; 0] None = inr (b "%R1Q,2008:0,0" ++ CRLF)
  /\ (fits rpc_code -> py_int (decimal rpc_code) = Some rpc_code)
  /\ (forall t, tid = Some t -> fits t -> py_int (decimal t) = Some t)
  /\ (forall n : Z, str n = None <-> ~ fits n).
Proof.
  (* the fixed parts of the frame and the numerals are ASCII *)
  assert (Hnon : forall (code tr : pystr) (strs : list pystr),
             str rpc_code = Some code ->
             match tid with Some t => str t = Some tr | None => tr = [] end ->
             (encode_ascii (u "%R1Q," ++ code ++ tr ++ u ":" ++ join (u ",") strs
                              ++ TERMINATION_STRING) = None
              <-> Exists (Exists non_ascii) strs)).
  { intros code tr strs Hc Ht.
    rewrite encode_ascii_None, !Exists_app.
    rewrite (Exists_join non_ascii (u ",") strs)
      by (apply (ascii_not_non_ascii (b ",")); repeat constructor).
    assert (N1 : ~ Exists non_ascii (u "%R1Q,"))
      by (apply (ascii_not_non_ascii (b "%R1Q,")); repeat constructor).
    assert (N2 : ~ Exists non_ascii code).
    { apply str_int_Some in Hc. destruct Hc as [_ ->].
      apply ascii_not_non_ascii, decimal_ascii. }
    assert (N3 : ~ Exists non_ascii tr).
    { destruct tid as [t |].
      - apply str_int_Some in Ht. destruct Ht as [_ ->].
        apply ascii_not_non_ascii, decimal_ascii.
      - subst tr. intros E; inversion E. }
    assert (N4 : ~ Exists non_ascii (u ":"))
      by (apply (ascii_not_non_ascii (b ":")); repeat constructor).
    assert (N5 : ~ Exists non_ascii TERMINATION_STRING)
      by (apply (ascii_not_non_ascii CRLF); repeat constructor).
    tauto. }
  (* integers that are rendered *)
  assert (Hfit : forall n : Z, str n = None <-> ~ fits n) by (intros n; apply str_int_None).
  assert (Hsome : forall n : Z, fits n -> str n = Some (map Byte.to_N (decimal n)))
    by (intros n; apply str_int_fits).
  split; [| split; [| split; [| split; [| split; [| split; [| split]]]]]].
  - intros strs ps Hc Ht Hs Hps.
    rewrite (request_string_rendered rpc_code params tid
               (map Byte.to_N (decimal rpc_code))
               (match tid with Some t => map Byte.to_N (decimal t) | None => [] end)
               strs (Hsome _ Hc)); [| | exact Hs].
    + rewrite (encode_ascii_app _ _ (b "%R1Q,")
                 (decimal rpc_code
                    ++ match tid with Some t => decimal t | None => [] end
                    ++ [COLON] ++ bjoin [COMMA] ps ++ CRLF)); [reflexivity | reflexivity |].
      apply encode_ascii_app; [apply encode_ascii_bytes, decimal_ascii |].
      apply encode_ascii_app.
      { destruct tid as [t |]; [apply encode_ascii_bytes, decimal_ascii | reflexivity]. }
      apply encode_ascii_app; [reflexivity |].
      apply encode_ascii_app; [apply encode_join; exact Hps | reflexivity].
    + destruct tid as [t |]; [apply Hsome, Ht; reflexivity | reflexivity].
  - destruct (request_string_inv rpc_code params tid)
      as [(code & tr & strs & Hc & Ht & Hs) | [Q Hno]].
    + rewrite (request_string_rendered _ _ _ _ _ _ Hc Ht Hs).
      specialize (Hnon code tr strs Hc Ht).
      assert (Hall : fits rpc_code /\ (forall t, tid = Some t -> fits t)
                     /\ (forall p, In p params -> str p <> None)).
      { split; [| split].
        - destruct (str_int_Some rpc_code code) as [Hx _]. exact (proj1 (Hx Hc)).
        - intros t ->. destruct (str_int_Some t tr) as [Hx _]. exact (proj1 (Hx Ht)).
        - intros p Hp. destruct (rendered_In _ _ _ Hs Hp) as [s [_ E]]. congruence. }
      split.
      * intros Q. destruct (encode_ascii _); [discriminate |].
        destruct Hall as (A1 & A2 & A3). split; [exact A1 |]. split; [exact A2 |].
        split; [exact A3 |].
        pose proof (proj1 Hnon eq_refl) as Hex. apply Exists_exists in Hex.
        destruct Hex as [s [Hin Hex]]. apply Exists_exists in Hex. destruct Hex as [c [Hc' Hn]].
        destruct (rendered_from _ _ _ Hs Hin) as [p [Hp E]].
        exists p, s, c. auto.
      * intros (_ & _ & _ & p & s & c & Hp & E & Hc' & Hn).
        destruct (rendered_In _ _ _ Hs Hp) as [s' [Hin E']].
        assert (s' = s) by congruence. subst s'.
        rewrite (proj2 Hnon); [reflexivity |].
        apply Exists_exists. exists s. split; [exact Hin |].
        apply Exists_exists. exists c. auto.
    + rewrite Q. split; [discriminate |].
      intros (A1 & A2 & A3 & _). exfalso.
      destruct Hno as [E | [[t [-> E]] | [p [Hp E]]]].
      * apply Hfit in E. exact (E A1).
      * apply Hfit in E. exact (E (A2 t eq_refl)).
      * exact (A3 p Hp E).
  - destruct (request_string_inv rpc_code params tid)
      as [(code & tr & strs & Hc & Ht & Hs) | [Q Hno]].
    + rewrite (request_string_rendered _ _ _ _ _ _ Hc Ht Hs).
      split.
      * destruct (encode_ascii _); discriminate.
      * intros Hno. exfalso. destruct Hno as [E | [[t [-> E]] | [p [Hp E]]]].
        -- apply Hfit in E. congruence.
        -- apply Hfit in E. congruence.
        -- destruct (rendered_In _ _ _ Hs Hp) as [s [_ E']]. congruence.
    + rewrite Q. split; [intros _ | reflexivity].
      destruct Hno as [E | [[t [-> E]] | Hp]].
      * left. apply Hfit. exact E.
      * right. left. exists t. split; [reflexivity | apply Hfit; exact E].
      * right. right. exact Hp.
  - intros e Q. destruct (request_string_error _ _ _ _ Q) as [-> | ->].
    + right. repeat split.
    + left. split; reflexivity.
  - reflexivity.
  - apply py_int_decimal.
  - intros t _. apply py_int_decimal.
  - exact Hfit.
Qed.

(** ** When decoding raises *)

Lemma decode_all_fails (ps : list bytes) :
  (exists e, decode_all ps = inl e) <-> Exists (fun p => decode_ascii p = None) ps.
Proof.
  induction ps as [| p ps IH]; simpl.
  - split; [intros [e He]; discriminate | intros H; inversion H].
  - destruct (decode_ascii p) as [s |] eqn:E.
    + destruct (decode_all ps) as [e | r]; simpl.
      * split; [intros _; right; apply IH; exists e; reflexivity | intros _; exists e; reflexivity].
      * split; [intros [e He]; discriminate |].
        intros H. inversion H as [? ? Hp | ? ? Hps]; subst; [congruence |].
        apply IH in Hps. destruct Hps as [e He]. discriminate.
    + split; [intros _; left; exact E | intros _; exists AsciiDecode; reflexivity].
Qed.

Lemma decode_all_error (ps : list bytes) (e : exn) :
  decode_all ps = inl e -> e = AsciiDecode.
Proof.
  induction ps as [| p ps IH]; simpl; [discriminate |].
  destruct (decode_ascii p); [| intros E; injection E as <-; reflexivity].
  destruct (decode_all ps) as [e' | r]; simpl; [| discriminate].
  intros E. injection E as <-. apply IH. reflexivity.
Qed.

Lemma int_of_error (x : bytes) (e : exn) : int_of x = inl e -> e = IntLiteral x.
Proof.
  unfold int_of. destruct (py_int x); [discriminate |].
  intros E. injection E as <-. reflexivity.
Qed.

Lemma header_error_class (header : bytes) (e : exn) :
  _get_response_header header = inl e -> isinstance e ValueError = true.
Proof.
  unfold _get_response_header.
  destruct (split COMMA header) as [| f0 [| f1 [| f2 [| f3 fs]]]]; simpl;
    try (intros E; injection E as <-; reflexivity).
  - destruct (bytes_eqb f0 (b "%R1P")); simpl;
      [| intros E; injection E as <-; reflexivity].
    destruct (int_of f1) as [e1 | n1] eqn:E1; simpl; [| discriminate].
    intros E. injection E as <-. rewrite (int_of_error _ _ E1). reflexivity.
  - destruct (bytes_eqb f0 (b "%R1P")); simpl;
      [| intros E; injection E as <-; reflexivity].
    destruct (int_of f2) as [e2 | n2] eqn:E2; simpl.
    + intros E. injection E as <-. rewrite (int_of_error _ _ E2). reflexivity.
    + destruct (int_of f1) as [e1 | n1] eqn:E1; simpl; [| discriminate].
      intros E. injection E as <-. rewrite (int_of_error _ _ E1). reflexivity.
Qed.

Lemma int_of_fails (x : bytes) : (exists e, int_of x = inl e) <-> py_int x = None.
Proof.
  unfold int_of. destruct (py_int x).
  - split; [intros [e He]; discriminate | discriminate].
  - split; [reflexivity | intros _; eexists; reflexivity].
Qed.

Lemma header_fails (header : bytes) :
  let fields := split COMMA header in
  (exists e, _get_response_header header = inl e)
  <-> (List.length fields <> 2%nat /\ List.length fields <> 3%nat)
      \/ hd [] fields <> b "%R1P"
      \/ py_int (nth 1 fields []) = None
      \/ (List.length fields = 3%nat /\ py_int (nth 2 fields []) = None).
Proof.
  unfold _get_response_header.
  destruct (split COMMA header) as [| f0 [| f1 [| f2 [| f3 fs]]]]; simpl.
  - split; [intros _; left; split; discriminate | intros _; eexists; reflexivity].
  - split; [intros _; left; split; discriminate | intros _; eexists; reflexivity].
  - destruct (bytes_eqb f0 (b "%R1P")) eqn:B; simpl.
    + apply bytes_eqb_eq in B. rewrite <- int_of_fails.
      destruct (int_of f1) as [e1 | n1]; simpl.
      * split; [intros _; right; right; left; exists e1; reflexivity
               | intros _; exists e1; reflexivity].
      * split; [intros [e He]; discriminate |].
        intros [[H _] | [H | [[e He] | [H _]]]]; congruence.
    + split; [| intros _; eexists; reflexivity].
      intros _. right. left. intros E. apply bytes_eqb_eq in E. congruence.
  - destruct (bytes_eqb f0 (b "%R1P")) eqn:B; simpl.
    + apply bytes_eqb_eq in B. rewrite <- !int_of_fails.
      destruct (int_of f2) as [e2 | n2]; simpl.
      * split; [| intros _; exists e2; reflexivity].
        intros _. right. right. right. split; [reflexivity | exists e2; reflexivity].
      * destruct (int_of f1) as [e1 | n1]; simpl.
        -- split; [intros _; right; right; left; exists e1; reflexivity
                  | intros _; exists e1; reflexivity].
        -- split; [intros [e He]; discriminate |].
           intros [[_ H] | [H | [[e He] | [_ [e He]]]]]; congruence.
    + split; [| intros _; eexists; reflexivity].
      intros _. right. left. intros E. apply bytes_eqb_eq in E. congruence.
  - split; [intros _; left; split; discriminate | intros _; eexists; reflexivity].
Qed.

Lemma parameters_error_class (body : bytes) (e : exn) :
  _get_response_parameters body = inl e -> isinstance e ValueError = true.
Proof.
  unfold _get_response_parameters.
  change (encode_ascii TERMINATION_STRING) with (Some CRLF). cbv iota beta.
  destruct (split COMMA (rstrip CRLF body)) as [| rs ps];
    [intros E; injection E as <-; reflexivity |].
  destruct (decode_all ps) as [e1 | strs] eqn:E1; simpl.
  - intros E. injection E as <-. rewrite (decode_all_error _ _ E1). reflexivity.
  - destruct (int_of rs) as [e2 | n] eqn:E2; simpl; [| discriminate].
    intros E. injection E as <-. rewrite (int_of_error _ _ E2). reflexivity.
Qed.

Lemma parameters_fails (body : bytes) :
  let fields := split COMMA (rstrip CRLF body) in
  (exists e, _get_response_parameters body = inl e)
  <-> py_int (hd [] fields) = None
      \/ Exists (fun p => decode_ascii p = None) (tl fields).
Proof.
  unfold _get_response_parameters.
  change (encode_ascii TERMINATION_STRING) with (Some CRLF). cbv iota beta zeta.
  pose proof (split_not_nil COMMA (rstrip CRLF body)) as Hne.
  destruct (split COMMA (rstrip CRLF body)) as [| rs ps]; [congruence |].
  simpl hd. simpl tl.
  rewrite <- int_of_fails, <- decode_all_fails.
  destruct (decode_all ps) as [e1 | strs]; simpl.
  - split; [intros _; right; exists e1; reflexivity | intros _; exists e1; reflexivity].
  - destruct (int_of rs) as [e2 | n]; simpl.
    + split; [intros _; left; exists e2; reflexivity | intros _; exists e2; reflexivity].
    + split; [intros [e He]; discriminate |].
      intros [[e He] | [e He]]; discriminate.
Qed.

(** C5, as the program has it: on a line that is not empty [decode] raises
    [ValueError] exactly when the line has no colon, or the header does not
    have two or three fields, or its first field is not [%R1P], or one of
    the fields read with [int] (communication status, transaction id, RPC
    status) is not an integer literal, or a parameter has a byte outside
    ASCII. *)
Theorem decode_value_error_iff (raw : bytes) :
  raw <> [] ->
  (raises (decode raw) ValueError
   <-> ~ In COLON raw
       \/ (List.length (header_fields raw) <> 2%nat
           /\ List.length (header_fields raw) <> 3%nat)
       \/ hd [] (header_fields raw) <> b "%R1P"
       \/ py_int (nth 1 (header_fields raw) []) = None
       \/ (List.length (header_fields raw) = 3%nat
           /\ py_int (nth 2 (header_fields raw) []) = None)
       \/ py_int (hd [] (body_fields raw)) = None
       \/ Exists (fun p => decode_ascii p = None) (tl (body_fields raw))).
Proof.
  intros Hne. unfold raises, header_fields, body_fields, header_of, body_of.
  destruct (split1_cases COLON raw) as [[Hn Hs] | (h & t & Hraw & Hn & Hs)].
  - rewrite Hs. split; [intros _; left; exact Hn |].
    intros _. exists (Unpack 1). split; [| reflexivity].
    unfold decode. rewrite Hs. destruct raw; [congruence | reflexivity].
  - rewrite Hs. simpl hd. simpl tl. simpl hd.
    pose proof (header_fails h) as HF. pose proof (parameters_fails t) as PF.
    cbv zeta in HF, PF.
    assert (Hin : In COLON raw) by (subst raw; apply in_or_app; right; left; reflexivity).
    subst raw. rewrite (decode_cut h t Hn).
    destruct (_get_response_header h) as [eh | [c tid]] eqn:EH; simpl.
    + split.
      * intros _. right.
        assert (X : exists e, @inl exn (Z * option Z) eh = inl e) by (exists eh; reflexivity).
        apply HF in X. tauto.
      * intros _. exists eh. split; [reflexivity |].
        apply (header_error_class h). exact EH.
    + assert (NH : ~ exists e, @inr exn (Z * option Z) (c, tid) = inl e)
        by (intros [e He]; discriminate).
      destruct (_get_response_parameters t) as [ep | [rc ps]] eqn:EP; simpl.
      * split.
        -- intros _. do 5 right.
           apply PF. exists ep. reflexivity.
        -- intros _. exists ep. split; [reflexivity |].
           apply (parameters_error_class t). exact EP.
      * assert (NP : ~ exists e, @inr exn (Z * list pystr) (rc, ps) = inl e)
          by (intros [e He]; discriminate).
        split; [intros [e [He _]]; discriminate |].
        intros H. exfalso. tauto.
Qed.

(** ** Trailing carriage returns and line feeds *)

Lemma bjoin_split (sep : byte) (x : bytes) : bjoin [sep] (split sep x) = x.
Proof.
  induction x as [| c x IH]; simpl; [reflexivity |].
  pose proof (split_not_nil sep x) as Hne.
  destruct (Byte.eqb c sep) eqn:E.
  - apply byte_eqb_eq in E. subst c.
    destruct (split sep x) as [| f fs]; [congruence |].
    simpl in *. rewrite IH. reflexivity.
  - destruct (split sep x) as [| f fs]; [congruence |].
    destruct fs; simpl in *; rewrite <- IH; reflexivity.
Qed.

Lemma bjoin_last (sep : bytes) (fs : list bytes) (f : bytes) :
  exists y, bjoin sep (fs ++ [f]) = y ++ f.
Proof.
  induction fs as [| g fs [y Hy]]; simpl.
  - exists []. reflexivity.
  - destruct (fs ++ [f]) as [| h hs] eqn:E; [destruct fs; discriminate |].
    exists (g ++ sep ++ y). rewrite Hy, <- !app_assoc. reflexivity.
Qed.

(** The last field of a line is a suffix of the line. *)
Lemma split_last_suffix (sep : byte) (x : bytes) (fs : list bytes) (f : bytes) :
  split sep x = fs ++ [f] -> exists y, x = y ++ f.
Proof.
  intros E. destruct (bjoin_last [sep] fs f) as [y Hy].
  exists y. rewrite <- Hy, <- E. symmetry. apply bjoin_split.
Qed.

Lemma decode_ascii_map (x : bytes) (s : pystr) :
  decode_ascii x = Some s -> s = map Byte.to_N x.
Proof.
  revert s. induction x as [| c x IH]; simpl; intros s E.
  - injection E as <-. reflexivity.
  - destruct (Byte.to_N c <? 128)%N; [| discriminate].
    destruct (decode_ascii x) as [r |]; [| discriminate].
    injection E as <-. rewrite (IH r eq_refl). reflexivity.
Qed.

Lemma decode_all_last (xs : list bytes) (ps : list pystr) (p : pystr) :
  decode_all xs = inr (ps ++ [p]) ->
  exists fs f, xs = fs ++ [f] /\ decode_ascii f = Some p.
Proof.
  revert ps. induction xs as [| x xs IH]; simpl; intros ps E.
  - destruct ps; discriminate.
  - destruct (decode_ascii x) as [s |] eqn:D; [| discriminate].
    destruct (decode_all xs) as [e | r] eqn:R; simpl in E; [discriminate |].
    injection E as E.
    destruct ps as [| p0 ps]; simpl in E.
    + injection E as -> ->.
      destruct xs as [| x' xs].
      * exists [], x. split; [reflexivity | exact D].
      * simpl in R. destruct (decode_ascii x'); [| discriminate].
        destruct (decode_all xs); discriminate.
    + injection E as -> ->.
      destruct (IH ps eq_refl) as [fs [f [-> Hf]]].
      exists (x :: fs), f. split; [reflexivity | exact Hf].
Qed.

Lemma decode_ok_cut (raw : bytes) (r : reply) :
  decode raw = inr r ->
  exists header body c,
    raw = header ++ COLON :: body /\ ~ In COLON header
    /\ _get_response_header header = inr (c, transaction_id r)
    /\ _get_response_parameters body = inr (rpc_return_code r, parameters r).
Proof.
  intros E. destruct (split1_cases COLON raw) as [[Hn Hs] | (h & t & Hraw & Hn & Hs)].
  - unfold decode in E. rewrite Hs in E. destruct raw; discriminate.
  - subst raw. rewrite (decode_cut h t Hn) in E.
    destruct (_get_response_header h) as [eh | [c tid]] eqn:EH; simpl in E; [discriminate |].
    destruct (_get_response_parameters t) as [ep | [rc ps]] eqn:EP; simpl in E; [discriminate |].
    injection E as <-. exists h, t, c. simpl.
    split; [reflexivity |]. split; [exact Hn |]. split; [exact EH | exact EP].
Qed.

(** [rstrip] does not reach behind a byte that stays. *)
Lemma rstrip_behind (chars x y : bytes) (c : byte) :
  mem c chars = false -> rstrip chars (x ++ c :: y) = x ++ c :: rstrip chars y.
Proof.
  intros Hc. induction x as [| a x IH].
  - cbn [app rstrip]. rewrite Hc. destruct (rstrip chars y); reflexivity.
  - cbn [app rstrip]. rewrite IH. destruct x; reflexivity.
Qed.

Lemma bjoin_snoc (sep : bytes) (fs : list bytes) (f : bytes) :
  fs <> [] -> bjoin sep (fs ++ [f]) = bjoin sep fs ++ sep ++ f.
Proof.
  induction fs as [| g fs IH]; intros Hne; [congruence |].
  destruct fs as [| h fs]; [reflexivity |].
  change (bjoin sep ((g :: h :: fs) ++ [f]))
    with (g ++ sep ++ bjoin sep ((h :: fs) ++ [f])).
  rewrite IH by discriminate.
  change (bjoin sep (g :: h :: fs)) with (g ++ sep ++ bjoin sep (h :: fs)).
  rewrite <- !app_assoc. reflexivity.
Qed.

(** The body of a reply with the trailing terminators of its last field
    removed. *)
Lemma rstrip_last_field (fs : list bytes) (wire : bytes) :
  fs <> [] ->
  rstrip CRLF (bjoin [COMMA] (fs ++ [wire]))
  = bjoin [COMMA] (fs ++ [rstrip CRLF wire]).
Proof.
  intros Hne. rewrite !bjoin_snoc by exact Hne.
  cbn [app]. apply rstrip_behind. reflexivity.
Qed.

(** C10: every trailing carriage return and line feed is dropped.  Adding
    any number of them to a line does not change what [decode] makes of it,
    and the last parameter [decode] returns never ends in one of them.
    What [decode] returns for the last parameter is its wire value with
    the carriage returns and line feeds at its end removed, all of them
    and nothing else. *)
Theorem decode_strips_every_trailing_terminator :
  (forall raw t : bytes,
      raw <> [] -> Forall (fun c => c = CR \/ c = LF) t ->
      decode (raw ++ t) = decode raw)
  /\ (forall (raw : bytes) (r : reply) (ps : list pystr) (p q : pystr) (c : N),
        decode raw = inr r -> parameters r = ps ++ [p] -> p = q ++ [c] ->
        c <> Byte.to_N CR /\ c <> Byte.to_N LF)
  /\ (forall (header : bytes) (status : Z) (tid : option Z) (rs : bytes) (n : Z)
             (ps : list bytes) (strs : list pystr) (wire : bytes) (s : pystr),
        ~ In COLON header -> _get_response_header header = inr (status, tid) ->
        Forall (fun f => ~ In COMMA f) (rs :: ps ++ [wire]) ->
        py_int rs = Some n ->
        Forall2 (fun p s => decode_ascii p = Some s) ps strs ->
        decode_ascii (rstrip CRLF wire) = Some s ->
        decode (header ++ COLON :: bjoin [COMMA] (rs :: ps ++ [wire]))
        = inr (mkReply n (strs ++ [s]) tid status)
        /\ s = map Byte.to_N (rstrip CRLF wire)
        /\ (exists t, wire = rstrip CRLF wire ++ t
                      /\ Forall (fun c => c = CR \/ c = LF) t)
        /\ (forall y c, rstrip CRLF wire = y ++ [c] -> c <> CR /\ c <> LF)).
Proof.
  split; [| split].
  3: { intros header status tid rs n ps strs wire s Hcolon Hh Hno Hn Hps Hs.
       destruct (rstrip_suffix CRLF wire) as [t [Hw Ht]].
       split; [| split; [| split]].
       - rewrite (decode_cut header _ Hcolon), Hh. cbn [rbind].
         unfold _get_response_parameters.
         change (encode_ascii TERMINATION_STRING) with (Some CRLF). cbv iota beta zeta.
         change (rs :: ps ++ [wire]) with ((rs :: ps) ++ [wire]).
         rewrite rstrip_last_field by discriminate.
         rewrite split_bjoin.
         + cbn [app].
           rewrite (decode_all_Forall2 (ps ++ [rstrip CRLF wire]) (strs ++ [s])).
           * cbn [rbind]. unfold int_of. rewrite Hn. reflexivity.
           * apply Forall2_app; [exact Hps | constructor; [exact Hs | constructor]].
         + discriminate.
         + change (rs :: ps ++ [wire]) with ((rs :: ps) ++ [wire]) in Hno.
           apply Forall_app in Hno. destruct Hno as [Hfs Hwire].
           apply Forall_app. split; [exact Hfs |].
           constructor; [| constructor].
           inversion Hwire as [| ? ? Hwc _]; subst.
           intros Hin. apply Hwc. rewrite Hw, in_app_iff. left. exact Hin.
       - apply decode_ascii_map. exact Hs.
       - exists t. split; [exact Hw |].
         apply Forall_impl with (2 := Ht). intros c Hc.
         apply mem_In in Hc. destruct Hc as [<- | [<- | []]]; [left | right]; reflexivity.
       - intros y c Hy. apply rstrip_last in Hy.
         split; intros ->; discriminate. }
  - intros raw t Hne Ht.
    assert (Ht' : Forall (fun c => mem c CRLF = true) t).
    { apply Forall_impl with (2 := Ht). intros c [-> | ->]; reflexivity. }
    assert (HnotC : ~ In COLON t).
    { intros Hin. rewrite Forall_forall in Ht. destruct (Ht _ Hin); discriminate. }
    destruct (split1_cases COLON raw) as [[Hn Hs] | (h & b0 & Hraw & Hn & Hs)].
    + assert (Hn' : ~ In COLON (raw ++ t)) by (rewrite in_app_iff; tauto).
      unfold decode. rewrite Hs, (split1_without_sep _ _ Hn').
      destruct raw; [congruence | reflexivity].
    + subst raw. rewrite <- app_assoc. simpl.
      rewrite !(decode_cut h _ Hn).
      unfold _get_response_parameters.
      change (encode_ascii TERMINATION_STRING) with (Some CRLF). cbv iota beta.
      rewrite (rstrip_app_stripped CRLF b0 t Ht'). reflexivity.
  - intros raw r ps p q c E Hps Hp.
    destruct (decode_ok_cut raw r E) as (h & body & cc & _ & _ & _ & HP).
    unfold _get_response_parameters in HP.
    change (encode_ascii TERMINATION_STRING) with (Some CRLF) in HP. cbv iota beta zeta in HP.
    destruct (split COMMA (rstrip CRLF body)) as [| rs fields] eqn:S; [discriminate |].
    destruct (decode_all fields) as [e | strs] eqn:D; simpl in HP; [discriminate |].
    destruct (int_of rs); simpl in HP; [discriminate |].
    injection HP as _ HP. rewrite HP, Hps in D.
    destruct (decode_all_last _ _ _ D) as (fs & f & -> & Hf).
    apply decode_ascii_map in Hf. rewrite Hp in Hf.
    destruct (split_last_suffix COMMA _ (rs :: fs) f S) as [y Hy].
    assert (Hlast : exists f' c', f = f' ++ [c'] /\ c = Byte.to_N c').
    { destruct (exists_last (l := f)) as (f' & c' & Hfc).
      - intros ->. destruct q; discriminate.
      - exists f', c'. split; [exact Hfc |].
        rewrite Hfc, map_app in Hf. simpl in Hf.
        apply app_inj_tail in Hf. tauto. }
    destruct Hlast as (f' & c' & -> & ->).
    rewrite app_assoc in Hy. apply rstrip_last in Hy.
    split; intros Heq.
    + assert (c' = CR) by (destruct c'; try discriminate; reflexivity).
      subst c'. discriminate.
    + assert (c' = LF) by (destruct c'; try discriminate; reflexivity).
      subst c'. discriminate.
Qed.

(** ** The [with] statement of the script *)

(** Entering the block binds the global to the session, so that a body
    which leaves the global alone reaches [__exit__] with the session
    bound to it: the situation of C1. *)
Lemma with_block_binds_session {A : Type} (self : ref) (body : M A) (w : world) :
  is_open (objects w self) = true ->
  tps (snd (body (bind_tps w self))) = tps (bind_tps w self) ->
  tps (snd (body (bind_tps w self))) = Some self
  /\ with_as_tps self body w
     = (match fst (__exit__ self (snd (body (bind_tps w self)))) with
        | inl e => inl e
        | inr _ => fst (body (bind_tps w self))
        end,
        snd (__exit__ self (snd (body (bind_tps w self))))).
Proof.
  intros Hopen Hkeep. split; [rewrite Hkeep; reflexivity |].
  unfold with_as_tps, __enter__. rewrite Hopen. cbn [negb].
  destruct (body (bind_tps w self)) as [outcome w2]. cbn [fst snd].
  destruct (__exit__ self w2) as [[e | []] w3]; reflexivity.
Qed.

(** ** Concrete runs

    The general statements above, each used on one input. *)

Lemma execute_classifies_reply_witness :
  execute 0%nat 2107 (@nil Z) None reporting
  = (inl (CommunicationCode 5),
     snd (get_response 0%nat (snd (send_request 0%nat 2107 (@nil Z) None reporting))))
  /\ exn_cls (CommunicationCode 5) = ConnectionError
  /\ isinstance (CommunicationCode 5) ValueError = false.
Proof.
  destruct (execute_classifies_reply 0%nat 2107 (@nil Z) None reporting
              (snd (send_request 0%nat 2107 (@nil Z) None reporting))
              (snd (get_response 0%nat (snd (send_request 0%nat 2107 (@nil Z) None reporting))))
              (mkReply 3 [] None 5) eq_refl eq_refl) as [Hc _].
  apply Hc. simpl. discriminate.
Defined.

Lemma decode_reply_fields_witness :
  decode (b "%R1P" ++ COMMA :: b "0" ++ COMMA :: b "5" ++ COLON
            :: bjoin [COMMA] [b "0"; b "2"; b "TPS1200"] ++ CRLF)
  = inr (mkReply 0 [u "2"; u "TPS1200"] (Some 5) 0).
Proof.
  apply (proj1 (proj2 (proj2 decode_reply_fields))
           (b "0") (b "5") (b "0") [b "2"; b "TPS1200"] 0 5 0 [u "2"; u "TPS1200"]);
    try reflexivity;
    try (vm_compute; intuition discriminate).
  - repeat constructor; vm_compute; intuition discriminate.
  - repeat constructor.
Defined.

Lemma request_string_frame_witness :
  request_string 9027 [0; 1] (Some 5)
  = inr (b "%R1Q," ++ decimal 9027 ++ decimal 5 ++ [COLON]
           ++ bjoin [COMMA] [b "0"; b "1"] ++ CRLF).
Proof.
  assert (Hcode : fits 9027) by (vm_compute; discriminate).
  assert (Htid : forall t, Some 5 = Some t -> fits t)
    by (intros t E; injection E as <-; vm_compute; discriminate).
  apply (proj1 (request_string_frame 9027 [0; 1] (Some 5))
           [u "0"; u "1"] [b "0"; b "1"] Hcode Htid);
    repeat constructor.
Defined.

Lemma decode_value_error_iff_witness :
  raises (decode (b "%R1P,0" ++ CRLF)) ValueError.
Proof.
  apply (proj2 (decode_value_error_iff (b "%R1P,0" ++ CRLF) ltac:(discriminate))).
  left. vm_compute. intuition discriminate.
Defined.

Lemma execute_on_closed_session_witness :
  exists e, execute 0%nat 2008 [0; 0] None closed_ports = (inl e, closed_ports)
            /\ ((exists req, request_string 2008 [0; 0] None = inr req)
                  /\ e = PortNotOpen /\ exn_cls e = PortNotOpenError
                \/ request_string 2008 [0; 0] None = inl StrDigits
                  /\ e = StrDigits /\ exn_cls e = ValueError
                \/ request_string 2008 [0; 0] None = inl AsciiEncode
                  /\ e = AsciiEncode /\ exn_cls e = UnicodeEncodeError).
Proof.
  exact (execute_on_closed_session 0%nat 2008 [0; 0] None closed_ports eq_refl).
Defined.

Lemma exit_closes_after_both_exchanges_witness :
  fst (__exit__ 0%nat (answering (Some 0%nat))) = inr tt
  /\ is_open (objects (snd (__exit__ 0%nat (answering (Some 0%nat)))) 0%nat) = false
  /\ sent (objects (snd (__exit__ 0%nat (answering (Some 0%nat)))) 0%nat)
     = sent (objects (answering (Some 0%nat)) 0%nat)
       ++ (b "%R1Q,2008:0,0" ++ CRLF) ++ (b "%R1Q,2020:2" ++ CRLF).
Proof.
  exact (exit_closes_after_both_exchanges 0%nat (answering (Some 0%nat)) eq_refl eq_refl).
Defined.

Lemma exit_second_exchange_on_global_witness :
  fst (__exit__ 0%nat (answering (Some 1%nat))) = inr tt
  /\ sent (objects (snd (__exit__ 0%nat (answering (Some 1%nat)))) 0%nat)
     = b "%R1Q,2008:0,0" ++ CRLF
  /\ sent (objects (snd (__exit__ 0%nat (answering (Some 1%nat)))) 1%nat)
     = b "%R1Q,2020:2" ++ CRLF.
Proof.
  assert (Hfirst : execute 0%nat 2008 [0; 0] None (answering (Some 1%nat))
                   = (inr (mkReply 0 [] None 0),
                      snd (execute 0%nat 2008 [0; 0] None (answering (Some 1%nat)))))
    by (vm_compute; reflexivity).
  pose proof (exit_second_exchange_on_global 0%nat (answering (Some 1%nat))
                (snd (execute 0%nat 2008 [0; 0] None (answering (Some 1%nat))))
                (mkReply 0 [] None 0) Hfirst) as Hexit.
  destruct Hexit as [_ Hbound].
  pose proof (Hbound 1%nat eq_refl ltac:(discriminate)) as Hother.
  destruct Hother as (Hend & Hself & Hother).
  assert (Hopen : is_open (objects (snd (execute 0%nat 2008 [0; 0] None
                                           (answering (Some 1%nat)))) 1%nat) = true)
    by (vm_compute; reflexivity).
  assert (Hlink : write_ok (objects (snd (execute 0%nat 2008 [0; 0] None
                                            (answering (Some 1%nat)))) 1%nat) = true)
    by (vm_compute; reflexivity).
  split; [etransitivity; [exact Hend | vm_compute; reflexivity] |].
  split; [exact Hself |].
  etransitivity; [exact (Hother Hopen Hlink) | vm_compute; reflexivity].
Defined.

Lemma decode_strips_every_trailing_terminator_witness :
  decode (b "%R1P,0" ++ COLON :: bjoin [COMMA] [b "0"; b "abc" ++ [CR; CR; LF]])
  = inr (mkReply 0 [u "abc"] None 0).
Proof.
  assert (Hcolon : ~ In COLON (b "%R1P,0")) by (vm_compute; intuition discriminate).
  assert (Hno : Forall (fun f => ~ In COMMA f) [b "0"; b "abc" ++ [CR; CR; LF]])
    by (repeat constructor; vm_compute; intuition discriminate).
  exact (proj1 (proj2 (proj2 decode_strips_every_trailing_terminator)
                  (b "%R1P,0") 0 None (b "0") 0 [] [] (b "abc" ++ [CR; CR; LF]) (u "abc")
                  Hcolon eq_refl Hno eq_refl (Forall2_nil _) eq_refl)).
Defined.

(** ** Where the specification asks for more than the program does *)

(** C1: a port whose link refuses the write is open before and after
    [__exit__], which ends with the exception of the write. *)
Lemma exit_propagates_write_failure :
  tps refusing_writes = Some 0%nat
  /\ is_open (objects refusing_writes 0%nat) = true
  /\ fst (__exit__ 0%nat refusing_writes) = inl WriteFailed
  /\ is_open (objects (snd (__exit__ 0%nat refusing_writes)) 0%nat) = true.
Proof. repeat split. Qed.

(** A power of ten has one digit more than its exponent. *)
Lemma digits_of_power (k : Z) :
  0 <= k -> digit_count (decimal (10 ^ k)) = k + 1.
Proof.
  revert k. apply natlike_ind; [reflexivity |].
  intros k Hk IH.
  pose proof (decimal_app (10 ^ k) 0 ltac:(apply Z.pow_pos_nonneg; lia) ltac:(lia)) as Happ.
  change (Z.of_nat (List.length (decimal 0))) with 1 in Happ.
  replace (10 ^ k * 10 ^ 1 + 0) with (10 ^ Z.succ k) in Happ
    by (rewrite Z.pow_succ_r by exact Hk; lia).
  rewrite Happ, digit_count_app, IH. reflexivity.
Qed.

(** [str] does not write the powers of ten from [10 ** 4300] on. *)
Lemma request_string_beyond_limit (k : Z) :
  MAX_STR_DIGITS <= k -> request_string (10 ^ k) (@nil Z) None = inl StrDigits.
Proof.
  intros Hk.
  assert (Hno : str_int (10 ^ k) = None).
  { apply str_int_None. unfold fits.
    rewrite digits_of_power by (unfold MAX_STR_DIGITS in Hk; lia). lia. }
  unfold request_string, str_of. cbn [rbind str_each].
  change (@str Z Str_int) with str_int. rewrite Hno. reflexivity.
Qed.

(** C4: an RPC code of 4301 digits, one more than [str] writes.  Building
    the request raises the [ValueError] of [str], which is no
    [UnicodeEncodeError], although there is no parameter and so no
    rendering with a character outside ASCII. *)
Lemma request_string_digit_limit :
  request_string (10 ^ 4300) (@nil Z) None = inl StrDigits
  /\ exn_cls StrDigits = ValueError
  /\ isinstance StrDigits UnicodeEncodeError = false
  /\ ~ (exists (p : Z) (s : pystr) (c : N),
          In p (@nil Z) /\ str p = Some s /\ In c s /\ non_ascii c).
Proof.
  split; [exact (request_string_beyond_limit 4300 (Z.le_refl _)) |].
  split; [reflexivity |]. split; [reflexivity |].
  intros (p & _ & _ & [] & _).
Qed.

(** C5: a header field that is no integer literal makes [decode] raise
    [ValueError] although the line has its colon, two header fields and
    the reply type [%R1P]. *)
Lemma decode_value_error_without_malformed_frame :
  ~ (raises (decode (b "%R1P,x:0" ++ CRLF)) ValueError
     <-> ~ In COLON (b "%R1P,x:0" ++ CRLF)
         \/ (List.length (header_fields (b "%R1P,x:0" ++ CRLF)) <> 2%nat
             /\ List.length (header_fields (b "%R1P,x:0" ++ CRLF)) <> 3%nat)
         \/ hd [] (header_fields (b "%R1P,x:0" ++ CRLF)) <> b "%R1P").
Proof.
  intros [H _].
  assert (R : raises (decode (b "%R1P,x:0" ++ CRLF)) ValueError).
  { exists (IntLiteral (b "x")). split; reflexivity. }
  destruct (H R) as [Hc | [[Hl _] | Ht]].
  - apply Hc. vm_compute. tauto.
  - apply Hl. reflexivity.
  - apply Ht. reflexivity.
Qed.

(** C7: on a closed port a parameter outside ASCII makes [execute] raise
    [UnicodeEncodeError], which is not the error of the closed port; an RPC
    code of 4301 digits makes it raise the [ValueError] of [str]. *)
Lemma execute_closed_raises_encoding_error :
  is_open (objects closed_ports 0%nat) = false
  /\ execute 0%nat 2008 ([[233%N]] : list pystr) None closed_ports
     = (inl AsciiEncode, closed_ports)
  /\ exn_cls AsciiEncode = UnicodeEncodeError
  /\ isinstance AsciiEncode PortNotOpenError = false
  /\ fst (execute 0%nat (10 ^ 4300) (@nil Z) None closed_ports) = inl StrDigits
  /\ isinstance StrDigits PortNotOpenError = false.
Proof.
  split; [reflexivity |]. split; [reflexivity |]. split; [reflexivity |].
  split; [reflexivity |]. split; [| reflexivity].
  unfold execute, send_request, bind, lift.
  rewrite (request_string_beyond_limit 4300 (Z.le_refl _)). reflexivity.
Qed.

(** C8: on the host's numbers the product [1e306 * 200] overflows, and the
    round trip of this finite angle is infinite. *)
Lemma host_round_trip_overflows :
  PrimFloat.is_finite large_angle = true
  /\ Host.gon2rad (Host.rad2gon large_angle) = infinity.
Proof. split; vm_compute; reflexivity. Qed.

(** C9: with a silent instrument the first exchange raises
    [ConnectionError]; [__exit__] ends there, without [NameError] and
    without a byte on the port the global names. *)
Lemma exit_stops_at_first_exchange :
  tps silent = Some 1%nat
  /\ fst (__exit__ 0%nat silent) = inl NoResponse
  /\ isinstance NoResponse NameError = false
  /\ sent (objects (snd (__exit__ 0%nat silent)) 1%nat) = [].
Proof. repeat split. Qed.

(** * Further properties of the program *)

(** ** Lines of the input buffer *)

Lemma take_line_app (x : bytes) : fst (take_line x) ++ snd (take_line x) = x.
Proof.
  induction x as [| c x IH]; simpl; [reflexivity |].
  destruct (Byte.eqb c LF); [reflexivity |].
  destruct (take_line x) as [l r]. simpl in *. rewrite IH. reflexivity.
Qed.

Lemma take_line_nil (x : bytes) : fst (take_line x) = [] <-> x = [].
Proof.
  destruct x as [| c x]; simpl; [tauto |].
  destruct (Byte.eqb c LF); [split; discriminate |].
  destruct (take_line x); split; discriminate.
Qed.

(** A line feed can only be the last byte of a line. *)
Lemma take_line_feed (x y z : bytes) :
  fst (take_line x) = y ++ LF :: z -> z = [] .
Proof.
  revert y. induction x as [| c x IH]; simpl; intros y E.
  - destruct y; discriminate.
  - destruct (Byte.eqb c LF) eqn:C.
    + destruct y as [| y0 [| y1 y]]; simpl in E; try discriminate.
      injection E as _ E. symmetry. exact E.
    + destruct (take_line x) as [l r]. simpl in *.
      destruct y as [| y0 y]; simpl in E.
      * injection E as -> _. rewrite (proj2 (byte_eqb_eq LF LF) eq_refl) in C. discriminate.
      * injection E as _ E. exact (IH y E).
Qed.

(** Bytes stay in the buffer only behind a line feed. *)
Lemma take_line_rest (x : bytes) :
  snd (take_line x) <> [] -> exists y, fst (take_line x) = y ++ [LF].
Proof.
  induction x as [| c x IH]; simpl; intros H; [congruence |].
  destruct (Byte.eqb c LF) eqn:C.
  - apply byte_eqb_eq in C. subst c. exists []. reflexivity.
  - destruct (take_line x) as [l r]. simpl in *.
    destruct (IH H) as [y ->]. exists (c :: y). reflexivity.
Qed.

Lemma decode_no_response (line : bytes) : decode line = inl NoResponse <-> line = [].
Proof.
  split; [| intros ->; reflexivity].
  intros E. destruct line as [| c line]; [reflexivity | exfalso].
  destruct (split1_cases COLON (c :: line)) as [[Hn Hs] | (h & t & Hraw & Hn & Hs)].
  - unfold decode in E. rewrite Hs in E. discriminate.
  - rewrite Hraw, (decode_cut h t Hn) in E.
    destruct (_get_response_header h) as [eh | [cc tid]] eqn:EH; simpl in E.
    + injection E as ->. apply header_error_class in EH. discriminate.
    + destruct (_get_response_parameters t) as [ep | [rc ps]] eqn:EP; simpl in E;
        [| discriminate].
      injection E as ->. apply parameters_error_class in EP. discriminate.
Qed.

(** X1: [send_request] writes the whole frame or nothing, and never reads.
    When it raises the world is as before; when it returns, the port has
    been handed exactly the request frame; in both cases every input buffer
    is left alone. *)
Theorem send_request_all_or_nothing {V : Type} `{Str V} (self : ref)
    (rpc_code : Z) (params : list V) (tid : option Z) (w : world) :
  (forall e w', send_request self rpc_code params tid w = (inl e, w') -> w' = w)
  /\ (forall w', send_request self rpc_code params tid w = (inr tt, w') ->
        exists req, request_string rpc_code params tid = inr req
                    /\ sent (objects w' self) = sent (objects w self) ++ req)
  /\ (forall x, incoming (objects (snd (send_request self rpc_code params tid w)) x)
                = incoming (objects w x)).
Proof.
  unfold send_request, bind, lift, write.
  destruct (request_string rpc_code params tid) as [e0 | req].
  - split; [intros e w' E; injection E as _ <-; reflexivity |].
    split; [intros w' E; discriminate | reflexivity].
  - destruct (is_open (objects w self)); cbn [negb];
      [| split; [intros e w' E; injection E as _ <-; reflexivity |];
         split; [intros w' E; discriminate | reflexivity]].
    destruct (write_ok (objects w self)); cbn [negb];
      [| split; [intros e w' E; injection E as _ <-; reflexivity |];
         split; [intros w' E; discriminate | reflexivity]].
    split; [intros e w' E; discriminate |]. split.
    + intros w' E. injection E as <-. exists req. rewrite update_same. split; reflexivity.
    + intros x. cbn [snd]. destruct (Nat.eq_dec x self) as [-> | Hx].
      * rewrite update_same. reflexivity.
      * rewrite update_other by exact Hx. reflexivity.
Qed.

(** X2: on an open port [get_response] takes exactly one line off the input
    buffer, whether or not the line can be decoded, and writes nothing.
    The line ends at the first line feed, or is all that arrived before the
    timeout; what follows stays in the buffer.  The [ConnectionError] for a
    missing response is raised exactly when the buffer is empty. *)
Theorem get_response_takes_one_line (self : ref) (w : world) :
  is_open (objects w self) = true ->
  let line := fst (take_line (incoming (objects w self))) in
  let rest := snd (take_line (incoming (objects w self))) in
  let w' := snd (get_response self w) in
  fst (get_response self w) = decode line
  /\ incoming (objects w' self) = rest
  /\ sent (objects w' self) = sent (objects w self)
  /\ line ++ rest = incoming (objects w self)
  /\ (forall y z, line = y ++ LF :: z -> z = [])
  /\ (rest <> [] -> exists y, line = y ++ [LF])
  /\ (fst (get_response self w) = inl NoResponse <-> incoming (objects w self) = []).
Proof.
  intros Hopen line rest w'.
  assert (Hrun : get_response self w
                 = (decode line,
                    update w self (mkSerial true (sent (objects w self)) rest
                                     (write_ok (objects w self))))).
  { unfold get_response, bind, lift, readline. rewrite Hopen. cbn [negb].
    subst line rest. destruct (take_line (incoming (objects w self))) as [l r].
    reflexivity. }
  subst w'. rewrite Hrun. cbn [fst snd]. rewrite update_same. cbn [incoming sent].
  split; [reflexivity |]. split; [reflexivity |]. split; [reflexivity |].
  split; [apply take_line_app |].
  split; [intros y z; apply take_line_feed |].
  split; [apply take_line_rest |].
  rewrite decode_no_response. apply take_line_nil.
Qed.

(** X3: what one [execute] does, in full.  Nothing happens to the world when
    the request cannot be encoded, when the port is closed or when the link
    refuses the write.  Otherwise the frame is written, one line is taken
    off the input buffer, and the outcome is read off that line alone; other
    objects and the global are as before. *)
Theorem execute_in_full {V : Type} `{Str V} (self : ref)
    (rpc_code : Z) (params : list V) (tid : option Z) (w : world) :
  match request_string rpc_code params tid with
  | inl e => execute self rpc_code params tid w = (inl e, w)
  | inr req =>
      if negb (is_open (objects w self)) then
        execute self rpc_code params tid w = (inl PortNotOpen, w)
      else if negb (write_ok (objects w self)) then
        execute self rpc_code params tid w = (inl WriteFailed, w)
      else
        let line := fst (take_line (incoming (objects w self))) in
        let rest := snd (take_line (incoming (objects w self))) in
        let w' := snd (execute self rpc_code params tid w) in
        fst (execute self rpc_code params tid w)
        = match decode line with
          | inl e => inl e
          | inr r =>
              if negb (communication_return_code r =? 0)
              then inl (CommunicationCode (communication_return_code r))
              else if negb (rpc_return_code r =? 0)
                   then inl (RpcCode (rpc_return_code r))
                   else inr r
          end
        /\ objects w' self
           = mkSerial true (sent (objects w self) ++ req) rest true
        /\ (forall x, x <> self -> objects w' x = objects w x)
        /\ tps w' = tps w
  end.
Proof.
  unfold execute, send_request, get_response, bind, lift.
  destruct (request_string rpc_code params tid) as [e | req]; [reflexivity |].
  unfold write.
  destruct (is_open (objects w self)) eqn:O; cbn [negb]; [| reflexivity].
  destruct (write_ok (objects w self)) eqn:K; cbn [negb]; [| reflexivity].
  unfold readline. rewrite update_same. cbn [is_open negb incoming sent write_ok].
  destruct (take_line (incoming (objects w self))) as [line rest]. cbn [fst snd].
  set (w2 := update (update w self _) self _).
  assert (Hself : objects w2 self
                  = mkSerial true (sent (objects w self) ++ req) rest true)
    by (subst w2; rewrite update_same; reflexivity).
  assert (Hother : forall x, x <> self -> objects w2 x = objects w x)
    by (intros x Hx; subst w2; rewrite !update_other by exact Hx; reflexivity).
  destruct (decode line) as [e | r]; cbn [fst snd];
    [split; [reflexivity |]; split; [exact Hself |]; split; [exact Hother | reflexivity] |].
  unfold raise, ret.
  destruct (negb (communication_return_code r =? 0)); cbn [fst snd];
    [split; [reflexivity |]; split; [exact Hself |]; split; [exact Hother | reflexivity] |].
  destruct (negb (rpc_return_code r =? 0)); cbn [fst snd];
    split; try reflexivity; split; try exact Hself; split; try exact Hother; reflexivity.
Qed.

Lemma decode_error_class (line : bytes) (e : exn) :
  decode line = inl e ->
  isinstance e OSError = true \/ isinstance e ValueError = true.
Proof.
  intros E. destruct line as [| c line].
  - injection E as <-. left. reflexivity.
  - right.
    destruct (split1_cases COLON (c :: line)) as [[Hn Hs] | (h & t & Hraw & Hn & Hs)].
    + unfold decode in E. rewrite Hs in E. injection E as <-. reflexivity.
    + rewrite Hraw, (decode_cut h t Hn) in E.
      destruct (_get_response_header h) as [eh | [cc tid]] eqn:EH; simpl in E.
      * injection E as <-. exact (header_error_class h eh EH).
      * destruct (_get_response_parameters t) as [ep | [rc ps]] eqn:EP; simpl in E;
          [| discriminate].
        injection E as <-. exact (parameters_error_class t ep EP).
Qed.

Lemma execute_error_class {V : Type} `{Str V} (self : ref)
    (rpc_code : Z) (params : list V) (tid : option Z) (w w' : world) (e : exn) :
  execute self rpc_code params tid w = (inl e, w') ->
  isinstance e OSError = true \/ isinstance e ValueError = true.
Proof.
  unfold execute, send_request, get_response, bind, lift.
  destruct (request_string rpc_code params tid) as [e0 | req] eqn:Q.
  { intros E. injection E as <- _. right.
    destruct (request_string_error _ _ _ _ Q) as [-> | ->]; reflexivity. }
  unfold write.
  destruct (is_open (objects w self)) eqn:O; cbn [negb];
    [| intros E; injection E as <- _; left; reflexivity].
  destruct (write_ok (objects w self)) eqn:K; cbn [negb];
    [| intros E; injection E as <- _; left; reflexivity].
  unfold readline. rewrite update_same. cbn [is_open negb incoming sent write_ok].
  destruct (take_line (incoming (objects w self))) as [line rest].
  destruct (decode line) as [e' | r] eqn:D.
  - intros E. injection E as <- _. exact (decode_error_class line e' D).
  - unfold raise, ret.
    destruct (negb (communication_return_code r =? 0));
      [intros E; injection E as <- _; left; reflexivity |].
    destruct (negb (rpc_return_code r =? 0));
      [intros E; injection E as <- _; right; reflexivity | discriminate].
Qed.

(** X4: whatever [execute] raises is an [OSError] or a [ValueError] (or of a
    subclass): a handler for these two classes catches every failure of an
    exchange. *)
Theorem execute_raises_oserror_or_valueerror {V : Type} `{Str V} (self : ref)
    (rpc_code : Z) (params : list V) (tid : option Z) (w : world) :
  match fst (execute self rpc_code params tid w) with
  | inl e => isinstance e OSError = true \/ isinstance e ValueError = true
  | inr r => communication_return_code r = 0 /\ rpc_return_code r = 0
  end.
Proof.
  destruct (execute self rpc_code params tid w) as [[e | r] w'] eqn:E; cbn [fst].
  - exact (execute_error_class _ _ _ _ _ _ _ E).
  - revert E. unfold execute, bind.
    destruct (send_request self rpc_code params tid w) as [[e1 | []] w1]; [discriminate |].
    destruct (get_response self w1) as [[e2 | r2] w2]; [discriminate |].
    unfold raise, ret.
    destruct (Z.eqb_spec (communication_return_code r2) 0); cbn [negb]; [| discriminate].
    destruct (Z.eqb_spec (rpc_return_code r2) 0); cbn [negb]; [| discriminate].
    intros E. injection E as <- _. split; assumption.
Qed.

(** X5: the reply is not matched against the request.  Two requests that can
    both be encoded end alike on the same port: the outcome depends on the
    line read, not on the RPC code, the parameters or the transaction id
    that were sent. *)
Theorem execute_outcome_ignores_request {V W : Type} `{Str V} `{Str W} (self : ref)
    (code1 code2 : Z) (params1 : list V) (params2 : list W) (tid1 tid2 : option Z)
    (w : world) (req1 req2 : bytes) :
  request_string code1 params1 tid1 = inr req1 ->
  request_string code2 params2 tid2 = inr req2 ->
  fst (execute self code1 params1 tid1 w) = fst (execute self code2 params2 tid2 w).
Proof.
  intros Q1 Q2. unfold execute, send_request, get_response, bind, lift.
  rewrite Q1, Q2. unfold write.
  destruct (is_open (objects w self)) eqn:O; cbn [negb]; [| reflexivity].
  destruct (write_ok (objects w self)) eqn:K; cbn [negb]; [| reflexivity].
  unfold readline. rewrite !update_same. cbn [is_open negb incoming sent write_ok].
  destruct (take_line (incoming (objects w self))) as [line rest].
  destruct (decode line) as [e | r]; [reflexivity |].
  unfold raise, ret.
  destruct (negb (communication_return_code r =? 0)); [reflexivity |].
  destruct (negb (rpc_return_code r =? 0)); reflexivity.
Qed.

(** ** Order of the checks in the parser *)

(** X6: the checks of [_get_response_header] come in a fixed order, and the
    first one that fails decides the exception: the number of fields, then
    the reply type, then the transaction id, then the communication status.
    When all pass, the transaction id is [None] exactly for two fields. *)
Theorem header_checks_in_order (header : bytes) :
  let fields := split COMMA header in
  let n := List.length fields in
  let reply_type := nth 0 fields [] in
  let status := nth 1 fields [] in
  let tid := nth 2 fields [] in
  (n <> 2%nat -> n <> 3%nat -> _get_response_header header = inl (HeaderCount n))
  /\ (n = 2%nat \/ n = 3%nat -> reply_type <> b "%R1P" ->
        _get_response_header header = inl ReplyType)
  /\ (n = 3%nat -> reply_type = b "%R1P" -> py_int tid = None ->
        _get_response_header header = inl (IntLiteral tid))
  /\ (n = 2%nat \/ (n = 3%nat /\ py_int tid <> None) -> reply_type = b "%R1P" ->
        py_int status = None ->
        _get_response_header header = inl (IntLiteral status))
  /\ (forall c t, _get_response_header header = inr (c, t) ->
        reply_type = b "%R1P" /\ py_int status = Some c
        /\ (t = None <-> n = 2%nat)
        /\ (forall k, t = Some k -> n = 3%nat /\ py_int tid = Some k)).
Proof.
  unfold _get_response_header.
  destruct (split COMMA header) as [| f0 [| f1 [| f2 [| f3 fs]]]]; cbn [List.length nth rbind].
  - repeat split; try (intros; (lia || discriminate)).
  - repeat split; try (intros; (lia || discriminate)).
  - destruct (bytes_eqb f0 (b "%R1P")) eqn:B; cbn [negb rbind].
    + apply bytes_eqb_eq in B. subst f0. unfold int_of.
      destruct (py_int f1) as [c1 |] eqn:P1; cbn [rbind].
      * split; [intros; lia |]. split; [intros; congruence |].
        split; [intros; lia |]. split; [intros; congruence |].
        intros c t E. injection E as <- <-.
        split; [reflexivity |]. split; [reflexivity |].
        split; [tauto |]. intros k Hk. discriminate.
      * split; [intros; lia |]. split; [intros; congruence |].
        split; [intros; lia |]. split; [reflexivity |].
        intros c t E. discriminate.
    + assert (Hne : f0 <> b "%R1P")
        by (intros E; apply bytes_eqb_eq in E; congruence).
      split; [intros; lia |]. split; [reflexivity |].
      split; [intros; lia |]. split; [intros; congruence |].
      intros c t E. discriminate.
  - destruct (bytes_eqb f0 (b "%R1P")) eqn:B; cbn [negb rbind].
    + apply bytes_eqb_eq in B. subst f0. unfold int_of.
      destruct (py_int f2) as [c2 |] eqn:P2; cbn [rbind].
      * destruct (py_int f1) as [c1 |] eqn:P1; cbn [rbind].
        -- split; [intros; lia |]. split; [intros; congruence |].
           split; [intros; congruence |]. split; [intros; congruence |].
           intros c t E. injection E as <- <-.
           split; [reflexivity |]. split; [reflexivity |].
           split; [split; [discriminate | lia] |].
           intros k Hk. injection Hk as <-. split; reflexivity.
        -- split; [intros; lia |]. split; [intros; congruence |].
           split; [intros; congruence |]. split; [reflexivity |].
           intros c t E. discriminate.
      * split; [intros; lia |]. split; [intros; congruence |].
        split; [reflexivity |].
        split; [intros [Hn | [_ Hn]]; [lia | congruence] |].
        intros c t E. discriminate.
    + assert (Hne : f0 <> b "%R1P")
        by (intros E; apply bytes_eqb_eq in E; congruence).
      split; [intros; lia |]. split; [reflexivity |].
      split; [intros; congruence |]. split; [intros; congruence |].
      intros c t E. discriminate.
  - repeat split; try (intros; (lia || discriminate)).
    all: intros; simpl in *; lia.
Qed.

Lemma decode_all_ok (ps : list bytes) :
  Forall (fun p => decode_ascii p <> None) ps ->
  decode_all ps = inr (map (map Byte.to_N) ps).
Proof.
  induction 1 as [| p ps Hp _ IH]; simpl; [reflexivity |].
  destruct (decode_ascii p) as [s |] eqn:D; [| congruence].
  rewrite IH. simpl. rewrite (decode_ascii_map p s D). reflexivity.
Qed.

Lemma decode_all_bad (ps : list bytes) :
  Exists (fun p => decode_ascii p = None) ps -> decode_all ps = inl AsciiDecode.
Proof.
  intros H. apply decode_all_fails in H. destruct H as [e He].
  rewrite He. f_equal. exact (decode_all_error ps e He).
Qed.

(** X7: in the body the parameters are decoded before the RPC status is
    read, and the header is parsed before the body.  So a parameter with a
    byte outside ASCII raises [UnicodeDecodeError] even when the status is no
    integer, and an exception of the header is raised whatever the body
    holds. *)
Theorem decode_checks_in_order (header body : bytes) :
  ~ In COLON header ->
  let fields := split COMMA (rstrip CRLF body) in
  let status := hd [] fields in
  let params := tl fields in
  (forall e, _get_response_header header = inl e ->
     decode (header ++ COLON :: body) = inl e)
  /\ (forall c t, _get_response_header header = inr (c, t) ->
        (Exists (fun p => decode_ascii p = None) params ->
           decode (header ++ COLON :: body) = inl AsciiDecode)
        /\ (Forall (fun p => decode_ascii p <> None) params ->
            py_int status = None ->
            decode (header ++ COLON :: body) = inl (IntLiteral status))
        /\ (Forall (fun p => decode_ascii p <> None) params ->
            forall n, py_int status = Some n ->
            decode (header ++ COLON :: body)
            = inr (mkReply n (map (map Byte.to_N) params) t c))).
Proof.
  intros Hn fields status params. subst status params fields.
  rewrite (decode_cut header body Hn).
  split; [intros e ->; reflexivity |].
  intros c t ->. cbn [rbind]. unfold _get_response_parameters.
  change (encode_ascii TERMINATION_STRING) with (Some CRLF). cbv iota beta zeta.
  pose proof (split_not_nil COMMA (rstrip CRLF body)) as Hne.
  destruct (split COMMA (rstrip CRLF body)) as [| rs ps]; [congruence |].
  cbn [hd tl]. unfold int_of. split; [| split].
  - intros Hbad. rewrite (decode_all_bad ps Hbad). reflexivity.
  - intros Hok Hs. rewrite (decode_all_ok ps Hok), Hs. reflexivity.
  - intros Hok n Hs. rewrite (decode_all_ok ps Hok), Hs. reflexivity.
Qed.

(** ** What a decoded reply tells about the line *)

Lemma split_length (sep : byte) (x : bytes) :
  List.length (split sep x) = S (count_occ Byte.byte_eq_dec x sep).
Proof.
  induction x as [| c x IH]; simpl; [reflexivity |].
  pose proof (split_not_nil sep x) as Hne.
  destruct (Byte.eqb c sep) eqn:E.
  - apply byte_eqb_eq in E. subst c.
    destruct (Byte.byte_eq_dec sep sep); [| congruence]. simpl. rewrite IH. reflexivity.
  - apply byte_eqb_neq in E.
    destruct (Byte.byte_eq_dec c sep); [congruence |].
    destruct (split sep x) as [| f fs]; [congruence |]. simpl in *. exact IH.
Qed.

Lemma split_fields_without_sep (sep : byte) (x : bytes) :
  Forall (fun f => ~ In sep f) (split sep x).
Proof.
  induction x as [| c x IH]; simpl.
  - constructor; [intros [] | constructor].
  - pose proof (split_not_nil sep x) as Hne.
    destruct (Byte.eqb c sep) eqn:E.
    + constructor; [intros [] | exact IH].
    + apply byte_eqb_neq in E.
      destruct (split sep x) as [| f fs]; [congruence |].
      inversion IH as [| ? ? Hf Hfs]; subst.
      constructor; [| exact Hfs].
      simpl. intros [-> | Hin]; [congruence | exact (Hf Hin)].
Qed.

Lemma decode_all_inv (xs : list bytes) (strs : list pystr) :
  decode_all xs = inr strs ->
  Forall2 (fun x s => decode_ascii x = Some s) xs strs.
Proof.
  revert strs. induction xs as [| x xs IH]; simpl; intros strs E.
  - injection E as <-. constructor.
  - destruct (decode_ascii x) as [s |] eqn:D; [| discriminate].
    destruct (decode_all xs) as [e | r]; simpl in E; [discriminate |].
    injection E as <-. constructor; [exact D | apply IH; reflexivity].
Qed.

Lemma decode_ascii_small (x : bytes) (s : pystr) :
  decode_ascii x = Some s -> Forall (fun c => (c < 128)%N) s.
Proof.
  revert s. induction x as [| c x IH]; simpl; intros s E.
  - injection E as <-. constructor.
  - destruct (N.ltb_spec (Byte.to_N c) 128) as [Hlt |]; [| discriminate].
    destruct (decode_ascii x) as [r |]; [| discriminate].
    injection E as <-. constructor; [exact Hlt | apply IH; reflexivity].
Qed.

Lemma parameters_inv (body : bytes) (n : Z) (strs : list pystr) :
  _get_response_parameters body = inr (n, strs) ->
  exists rs ps,
    split COMMA (rstrip CRLF body) = rs :: ps
    /\ py_int rs = Some n
    /\ Forall2 (fun p s => decode_ascii p = Some s) ps strs.
Proof.
  unfold _get_response_parameters.
  change (encode_ascii TERMINATION_STRING) with (Some CRLF). cbv iota beta zeta.
  destruct (split COMMA (rstrip CRLF body)) as [| rs ps]; [discriminate |].
  destruct (decode_all ps) as [e | r] eqn:D; cbn [rbind]; [discriminate |].
  unfold int_of. destruct (py_int rs) as [k |] eqn:P; cbn [rbind]; [| discriminate].
  intros E. injection E as <- <-. exists rs, ps.
  split; [reflexivity |]. split; [exact P | apply decode_all_inv; exact D].
Qed.

(** X8: what [decode] returns as parameters.  There are as many of them as
    the body, without its trailing carriage returns and line feeds, has
    commas; none of them contains a comma or a character outside ASCII. *)
Theorem decode_parameters_shape (raw : bytes) (r : reply) :
  decode raw = inr r ->
  List.length (parameters r)
  = count_occ Byte.byte_eq_dec (rstrip CRLF (body_of raw)) COMMA
  /\ Forall (fun p => Forall (fun c => (c < 128)%N /\ c <> Byte.to_N COMMA) p)
       (parameters r).
Proof.
  intros E. destruct (decode_ok_cut raw r E) as (h & body & c & Hraw & Hn & _ & HP).
  assert (Hbody : body_of raw = body).
  { unfold body_of. rewrite Hraw, (split1_app_sep COLON h body Hn). reflexivity. }
  rewrite Hbody.
  destruct (parameters_inv body _ _ HP) as (rs & ps & Hs & _ & Hps).
  pose proof (split_length COMMA (rstrip CRLF body)) as Hlen.
  pose proof (split_fields_without_sep COMMA (rstrip CRLF body)) as Hsep.
  rewrite Hs in Hlen, Hsep. simpl in Hlen.
  inversion Hsep as [| ? ? _ Hsep']; subst. clear Hsep.
  split.
  - rewrite <- (Forall2_length Hps). lia.
  - clear Hs Hlen HP. induction Hps as [| p s ps strs Hp _ IH]; [constructor |].
    inversion Hsep' as [| ? ? Hp' Hrest]; subst.
    constructor; [| apply IH; exact Hrest].
    pose proof (decode_ascii_small p s Hp) as Hsmall.
    apply decode_ascii_map in Hp. subst s.
    rewrite Forall_forall in *. intros k Hk. split; [apply Hsmall; exact Hk |].
    intros ->. apply in_map_iff in Hk. destruct Hk as [c0 [Hc0 Hin]].
    assert (c0 = COMMA) by (destruct c0; try discriminate; reflexivity).
    subst c0. exact (Hp' Hin).
Qed.

(** What a header that parses looks like. *)
Lemma header_inv (header : bytes) (c : Z) (t : option Z) :
  _get_response_header header = inr (c, t) ->
  nth 0 (split COMMA header) [] = b "%R1P"
  /\ py_int (nth 1 (split COMMA header) []) = Some c
  /\ match t with
     | None => List.length (split COMMA header) = 2%nat
     | Some k => List.length (split COMMA header) = 3%nat
                 /\ py_int (nth 2 (split COMMA header) []) = Some k
     end.
Proof.
  unfold _get_response_header.
  destruct (split COMMA header) as [| f0 [| f1 [| f2 [| f3 fs]]]];
    cbn [List.length nth rbind]; try discriminate.
  - destruct (bytes_eqb f0 (b "%R1P")) eqn:B; cbn [negb rbind]; [| discriminate].
    apply bytes_eqb_eq in B. unfold int_of.
    destruct (py_int f1) as [c1 |]; cbn [rbind]; [| discriminate].
    intros E. injection E as <- <-. repeat split. exact B.
  - destruct (bytes_eqb f0 (b "%R1P")) eqn:B; cbn [negb rbind]; [| discriminate].
    apply bytes_eqb_eq in B. unfold int_of.
    destruct (py_int f2) as [c2 |]; cbn [rbind]; [| discriminate].
    destruct (py_int f1) as [c1 |]; cbn [rbind]; [| discriminate].
    intros E. injection E as <- <-. repeat split. exact B.
Qed.

(** X9: every line that [decode] accepts is a frame of the protocol.  It is
    [%R1P], the communication status and possibly a transaction id,
    separated by commas; a colon; the RPC status and the parameters,
    separated by commas; and then only carriage returns and line feeds.  The
    fields are those the reply reports. *)
Theorem decode_accepts_frames_only (raw : bytes) (r : reply) :
  decode raw = inr r ->
  exists (cs rs : bytes) (ts : list bytes) (ps : list bytes) (trailer : bytes),
    raw = bjoin [COMMA] (b "%R1P" :: cs :: ts) ++ COLON
            :: bjoin [COMMA] (rs :: ps) ++ trailer
    /\ Forall (fun c => c = CR \/ c = LF) trailer
    /\ py_int cs = Some (communication_return_code r)
    /\ py_int rs = Some (rpc_return_code r)
    /\ Forall2 (fun p s => decode_ascii p = Some s) ps (parameters r)
    /\ match transaction_id r with
       | None => ts = []
       | Some k => exists t, ts = [t] /\ py_int t = Some k
       end.
Proof.
  intros E. destruct (decode_ok_cut raw r E) as (h & body & c & Hraw & Hn & HH & HP).
  destruct (parameters_inv body _ _ HP) as (rs & ps & Hs & Hrs & Hps).
  destruct (rstrip_suffix CRLF body) as (trailer & Hbody & Htrailer).
  assert (Hc : c = communication_return_code r).
  { revert E. rewrite Hraw, (decode_cut h body Hn), HH, HP. cbn [rbind].
    intros E. injection E as <-. reflexivity. }
  subst c.
  assert (Hb : rstrip CRLF body = bjoin [COMMA] (rs :: ps))
    by (rewrite <- Hs; symmetry; apply bjoin_split).
  assert (Ht : Forall (fun c => c = CR \/ c = LF) trailer).
  { apply Forall_impl with (2 := Htrailer). intros c Hc.
    apply mem_In in Hc. simpl in Hc. unfold CR, LF. intuition. }
  destruct (header_inv h _ _ HH) as (Htype & Hstatus & Htid).
  pose proof (bjoin_split COMMA h) as Hh.
  destruct (split COMMA h) as [| f0 [| f1 [| f2 [| f3 fs]]]] eqn:S;
    cbn [nth List.length] in *;
    try (destruct (transaction_id r); [destruct Htid |]; discriminate).
  - exists f1, rs, [], ps, trailer. subst f0.
    split; [| split; [exact Ht |]; split; [exact Hstatus |]; split; [exact Hrs |];
              split; [exact Hps |]].
    + rewrite Hraw, <- Hh, Hbody at 1. rewrite Hb. reflexivity.
    + destruct (transaction_id r) as [k |]; [| reflexivity].
      destruct Htid. discriminate.
  - exists f1, rs, [f2], ps, trailer. subst f0.
    split; [| split; [exact Ht |]; split; [exact Hstatus |]; split; [exact Hrs |];
              split; [exact Hps |]].
    + rewrite Hraw, <- Hh, Hbody at 1. rewrite Hb. reflexivity.
    + destruct (transaction_id r) as [k |]; [| discriminate].
      exists f2. split; [reflexivity | apply Htid].
Qed.

Lemma close_effect (self : ref) (w : world) :
  fst (close self w) = inr tt
  /\ tps (snd (close self w)) = tps w
  /\ is_open (objects (snd (close self w)) self) = false
  /\ (forall x, x <> self -> objects (snd (close self w)) x = objects w x).
Proof.
  unfold close. cbn [fst snd]. rewrite update_same.
  split; [reflexivity |]. split; [reflexivity |]. split; [reflexivity |].
  intros x Hx. apply update_other. exact Hx.
Qed.

Lemma global_tps_error (w w' : world) (e : exn) :
  global_tps w = (inl e, w') -> isinstance e NameError = true /\ w' = w.
Proof.
  unfold global_tps. destruct (tps w); [discriminate |].
  intros E. injection E as <- <-. split; reflexivity.
Qed.

(** How [__exit__] leaves the world, whatever the global holds. *)
Lemma exit_effect (self : ref) (w : world) :
  tps (snd (__exit__ self w)) = tps w
  /\ (forall x, x <> self ->
        is_open (objects (snd (__exit__ self w)) x) = is_open (objects w x))
  /\ (forall x, x <> self -> tps w <> Some x ->
        objects (snd (__exit__ self w)) x = objects w x)
  /\ match fst (__exit__ self w) with
     | inr _ => is_open (objects (snd (__exit__ self w)) self) = false
     | inl e =>
         is_open (objects (snd (__exit__ self w)) self) = is_open (objects w self)
         /\ (isinstance e OSError = true \/ isinstance e ValueError = true
             \/ isinstance e NameError = true)
     end.
Proof.
  unfold __exit__, bind.
  pose proof (execute_exchange_only self 2008 [0; 0] None w) as X1.
  destruct (execute self 2008 [0; 0] None w) as [[e1 | r1] w1] eqn:E1; cbn [fst snd] in *.
  - destruct X1 as (T1 & O1 & _ & F1).
    split; [exact T1 |]. split; [intros x Hx; rewrite (F1 x Hx); reflexivity |].
    split; [intros x Hx _; exact (F1 x Hx) |]. split; [exact O1 |].
    destruct (execute_error_class _ _ _ _ _ _ _ E1); tauto.
  - destruct X1 as (T1 & O1 & _ & F1).
    unfold global_tps. rewrite T1.
    destruct (tps w) as [other |] eqn:G; cbn [fst snd].
    + pose proof (execute_exchange_only other 2020 [2] None w1) as X2.
      destruct (execute other 2020 [2] None w1) as [[e2 | r2] w2] eqn:E2;
        cbn [fst snd] in *; destruct X2 as (T2 & O2 & _ & F2).
      * split; [congruence |]. split; [| split; [| split]].
        -- intros x Hx. destruct (Nat.eq_dec x other) as [-> | Hxo].
           ++ rewrite O2, (F1 other Hx). reflexivity.
           ++ rewrite (F2 x Hxo), (F1 x Hx). reflexivity.
        -- intros x Hx Hg. assert (Hxo : x <> other) by congruence.
           rewrite (F2 x Hxo). exact (F1 x Hx).
        -- destruct (Nat.eq_dec self other) as [<- | Hso].
           ++ rewrite O2. exact O1.
           ++ rewrite (F2 self Hso). exact O1.
        -- destruct (execute_error_class _ _ _ _ _ _ _ E2); tauto.
      * destruct (close_effect self w2) as (_ & T3 & O3 & F3).
        split; [congruence |]. split; [| split; [| exact O3]].
        -- intros x Hx. rewrite (F3 x Hx).
           destruct (Nat.eq_dec x other) as [-> | Hxo].
           ++ rewrite O2, (F1 other Hx). reflexivity.
           ++ rewrite (F2 x Hxo), (F1 x Hx). reflexivity.
        -- intros x Hx Hg. assert (Hxo : x <> other) by congruence.
           rewrite (F3 x Hx), (F2 x Hxo). exact (F1 x Hx).
    + split; [exact T1 |]. split; [intros x Hx; rewrite (F1 x Hx); reflexivity |].
      split; [intros x Hx _; exact (F1 x Hx) |]. split; [exact O1 |].
      right. right. reflexivity.
Qed.

(** X10: [__exit__] closes the port exactly when it returns.  When it raises,
    the port is as open as before, and the exception is an [OSError], a
    [ValueError] or a [NameError].  It never rebinds the global, never
    changes whether another port is open, and leaves alone every object
    that is neither the session nor the one the global holds. *)
Theorem exit_closes_exactly_on_return (self : ref) (w : world) :
  is_open (objects w self) = true ->
  (is_open (objects (snd (__exit__ self w)) self) = false
   <-> fst (__exit__ self w) = inr tt)
  /\ (forall e, fst (__exit__ self w) = inl e ->
        isinstance e OSError = true \/ isinstance e ValueError = true
        \/ isinstance e NameError = true)
  /\ tps (snd (__exit__ self w)) = tps w
  /\ (forall x, x <> self ->
        is_open (objects (snd (__exit__ self w)) x) = is_open (objects w x))
  /\ (forall x, x <> self -> tps w <> Some x ->
        objects (snd (__exit__ self w)) x = objects w x).
Proof.
  intros Hopen. destruct (exit_effect self w) as (T & O & F & R).
  split; [| split; [| split; [exact T |]; split; [exact O | exact F]]].
  - destruct (fst (__exit__ self w)) as [e | []].
    + destruct R as [R _]. split; [congruence | discriminate].
    + split; [reflexivity | intros _; exact R].
  - intros e He. rewrite He in R. tauto.
Qed.

(** X11: the [with] statement on a session.  On a port that is not open it
    raises the [IOError] of [__enter__] and runs neither the body nor the
    cleanup.  When it returns, the body has returned and the port is
    closed.  An exception of the cleanup replaces the outcome of the body,
    also an exception the body had raised. *)
Theorem with_block_outcome {A : Type} (self : ref) (body : M A) (w : world) :
  (is_open (objects w self) = false ->
     with_as_tps self body w = (inl PortOpenFailed, w)
     /\ isinstance PortOpenFailed OSError = true)
  /\ (forall a w', with_as_tps self body w = (inr a, w') ->
        is_open (objects w' self) = false
        /\ fst (body (bind_tps w self)) = inr a)
  /\ (is_open (objects w self) = true ->
      forall e, fst (__exit__ self (snd (body (bind_tps w self)))) = inl e ->
      fst (with_as_tps self body w) = inl e).
Proof.
  unfold with_as_tps, __enter__.
  destruct (is_open (objects w self)) eqn:O; cbn [negb].
  - split; [discriminate |].
    destruct (body (bind_tps w self)) as [outcome w2]. cbn [fst snd].
    pose proof (exit_effect self w2) as (_ & _ & _ & R).
    destruct (__exit__ self w2) as [[e | []] w3]; cbn [fst snd] in *.
    + split; [intros a w' E; discriminate |].
      intros _ e' E. injection E as <-. reflexivity.
    + split; [| intros _ e' E; discriminate].
      intros a w' E. injection E as -> <-. split; [exact R | reflexivity].
  - split; [intros _; split; reflexivity |].
    split; [intros a w' E; discriminate | discriminate].
Qed.

Lemma take_line_first_feed (y z : bytes) :
  ~ In LF y -> take_line (y ++ LF :: z) = (y ++ [LF], z).
Proof.
  induction y as [| c y IH]; simpl; intros H.
  - reflexivity.
  - destruct (Byte.eqb c LF) eqn:C.
    + apply byte_eqb_eq in C. subst c. tauto.
    + rewrite IH by tauto. reflexivity.
Qed.

Lemma take_line_without_feed (x : bytes) : ~ In LF x -> take_line x = (x, []).
Proof.
  induction x as [| c x IH]; simpl; intros H; [reflexivity |].
  destruct (Byte.eqb c LF) eqn:C.
  - apply byte_eqb_eq in C. subst c. tauto.
  - rewrite IH by tauto. reflexivity.
Qed.

Lemma take_line_colon (x : bytes) :
  In COLON (fst (take_line x)) \/ ~ In COLON (fst (take_line x)).
Proof.
  destruct (in_dec Byte.byte_eq_dec COLON (fst (take_line x))); tauto.
Qed.

(** X12: the script [main.py] on a port that is open and accepts writes.  It
    writes the frame that [send_request] builds for RPC 2107 without
    parameters and reads one line.  When the line has a colon the script
    closes the port and reports both states.  When it has none, as after a
    read timeout, the unpacking raises [ValueError]: the port stays open
    and the second report is not printed. *)
Theorem main_py_closes_only_after_reply (TPS_port : ref) (w : world) :
  is_open (objects w TPS_port) = true ->
  write_ok (objects w TPS_port) = true ->
  let line := fst (take_line (incoming (objects w TPS_port))) in
  let '(outcome, w', printed) := main_py TPS_port w in
  request_string 2107 (@nil Z) None = inr (b "%R1Q,2107:" ++ CRLF)
  /\ sent (objects w' TPS_port) = sent (objects w TPS_port) ++ b "%R1Q,2107:" ++ CRLF
  /\ incoming (objects w' TPS_port) = snd (take_line (incoming (objects w TPS_port)))
  /\ (In COLON line ->
        outcome = inr tt /\ is_open (objects w' TPS_port) = false
        /\ printed = ["Port is connected"%string; "Port is disconnected"%string])
  /\ (~ In COLON line ->
        outcome = inl (Unpack 1) /\ isinstance (Unpack 1) ValueError = true
        /\ is_open (objects w' TPS_port) = true
        /\ printed = ["Port is connected"%string]).
Proof.
  intros Hopen Hok line. unfold main_py. rewrite Hopen.
  change (encode_ascii (u "%R1Q,2107:" ++ [13%N; 10%N]))
    with (Some (b "%R1Q,2107:" ++ CRLF)).
  unfold bind, lift, write. rewrite Hopen, Hok. cbn [negb].
  unfold readline. rewrite update_same. cbn [is_open negb incoming sent write_ok].
  subst line. destruct (take_line (incoming (objects w TPS_port))) as [line rest].
  cbn [fst snd].
  destruct (split1_cases COLON line) as [[Hn Hs] | (h & t & Hline & Hn & Hs)].
  - rewrite Hs. cbn [unpack2 List.length].
    split; [reflexivity |]. rewrite update_same. cbn [sent incoming is_open].
    split; [reflexivity |]. split; [reflexivity |].
    split; [intros Hin; contradiction |].
    intros _. repeat split.
  - rewrite Hs. cbn [unpack2]. unfold close. cbn [fst snd].
    rewrite !update_same. cbn [sent incoming is_open negb].
    split; [reflexivity |]. rewrite update_same. cbn [sent incoming is_open].
    split; [reflexivity |]. split; [reflexivity |].
    split; [intros _; repeat split |].
    intros Hno. exfalso. apply Hno. rewrite Hline. apply in_or_app. right. left. reflexivity.
Qed.

(** X13: the transaction id is written right behind the RPC code, so the
    request does not tell them apart: for a positive RPC code and a
    transaction id that is not negative, the frame is the one of a request
    without transaction id whose RPC code has the digits of both, as long
    as these are no more digits than [str] writes. *)
Theorem request_string_merges_code_and_id {V : Type} `{Str V}
    (rpc_code tid : Z) (params : list V) :
  0 < rpc_code -> 0 <= tid ->
  fits (rpc_code * 10 ^ Z.of_nat (List.length (decimal tid)) + tid) ->
  request_string rpc_code params (Some tid)
  = request_string (rpc_code * 10 ^ Z.of_nat (List.length (decimal tid)) + tid)
      params None.
Proof.
  intros Hc Ht Hfit.
  pose proof (decimal_app rpc_code tid Hc Ht) as Happ.
  assert (Hboth : fits rpc_code /\ fits tid).
  { unfold fits in *. rewrite Happ, digit_count_app in Hfit.
    pose proof (digit_count_nonneg (decimal rpc_code)).
    pose proof (digit_count_nonneg (decimal tid)). lia. }
  destruct Hboth as [Fc Ft].
  unfold request_string, str_of. change (@str Z Str_int) with str_int.
  rewrite (str_int_fits _ Fc), (str_int_fits _ Ft), (str_int_fits _ Hfit), Happ.
  cbn [rbind]. destruct (str_each params) as [e | strs]; cbn [rbind]; [reflexivity |].
  rewrite map_app, <- !app_assoc. reflexivity.
Qed.

(** ** Requests and lines *)

Lemma encode_ascii_map (s : pystr) (x : bytes) :
  encode_ascii s = Some x -> s = map Byte.to_N x.
Proof.
  revert x. induction s as [| c s IH]; simpl; intros x E.
  - injection E as <-. reflexivity.
  - destruct (c <? 128)%N; [| discriminate].
    destruct (Byte.of_N c) as [c' |] eqn:C; [| discriminate].
    destruct (encode_ascii s) as [r |]; [| discriminate].
    injection E as <-. simpl. rewrite (Byte.to_of_N _ C), <- (IH r eq_refl). reflexivity.
Qed.

Lemma to_N_LF (c : byte) : Byte.to_N c = 10%N <-> c = LF.
Proof.
  split; [| intros ->; reflexivity].
  intros E. destruct c; try discriminate; reflexivity.
Qed.

Lemma In_LF_map (x : bytes) : In 10%N (map Byte.to_N x) <-> In LF x.
Proof.
  rewrite in_map_iff. split.
  - intros [c [E Hin]]. apply to_N_LF in E. subst c. exact Hin.
  - intros Hin. exists LF. split; [reflexivity | exact Hin].
Qed.

Lemma digits_no_feed (d : Decimal.uint) :
  ~ In LF (b (NilEmpty.string_of_uint d)).
Proof.
  pose proof (digits_are_digits d) as H. rewrite Forall_forall in H.
  intros Hin. apply (H LF Hin). reflexivity.
Qed.

Lemma str_int_no_feed (n : Z) (s : pystr) : str_int n = Some s -> ~ In 10%N s.
Proof.
  intros E. apply str_int_Some in E. destruct E as [_ ->].
  rewrite In_LF_map. unfold decimal.
  assert (U : forall d, ~ In LF (b (NilZero.string_of_uint d))).
  { intros d. destruct d; try apply digits_no_feed.
    cbn. intros [E | []]. discriminate. }
  destruct (Z.to_int n) as [d | d]; cbn [NilZero.string_of_int].
  - apply U.
  - change (b (String "-" ?s)) with (x2d :: b s).
    intros [E | Hin]; [discriminate | exact (U d Hin)].
Qed.

(** X14: a request is one line exactly when no parameter is rendered with a
    line feed.  Line feeds are not escaped: a parameter that holds one ends
    the line early, and the instrument is handed more than one line. *)
Theorem request_is_one_line_iff {V : Type} `{Str V}
    (rpc_code : Z) (params : list V) (tid : option Z) (req : bytes) :
  request_string rpc_code params tid = inr req ->
  (take_line req = (req, [])
   <-> forall p s, In p params -> str p = Some s -> ~ In 10%N s)
  /\ (exists y, req = y ++ CRLF).
Proof.
  intros Q.
  destruct (request_string_inv rpc_code params tid)
    as [(code & tr & strs & Hc & Ht & Hs) | [Q' _]]; [| congruence].
  rewrite (request_string_rendered _ _ _ _ _ _ Hc Ht Hs) in Q.
  set (body := u "%R1Q," ++ code ++ tr ++ u ":" ++ join (u ",") strs).
  replace (u "%R1Q," ++ code ++ tr ++ u ":"
             ++ join (u ",") strs ++ TERMINATION_STRING)
    with (body ++ TERMINATION_STRING) in Q
    by (unfold body; rewrite <- !app_assoc; reflexivity).
  destruct (encode_ascii (body ++ TERMINATION_STRING)) as [x |] eqn:E; [| discriminate].
  injection Q as ->.
  apply encode_ascii_map in E.
  (* the frame is the body followed by CR LF *)
  assert (Hshape : exists y, req = y ++ CRLF /\ map Byte.to_N y = body).
  { symmetry in E. apply map_eq_app in E. destruct E as (y & z & -> & Hy & Hz).
    exists y. split; [| exact Hy]. f_equal.
    destruct z as [| c1 [| c2 [| c3 z]]]; try discriminate.
    cbn in Hz. injection Hz as H1 H2.
    assert (c1 = CR) by (destruct c1; try discriminate; reflexivity).
    assert (c2 = LF) by (destruct c2; try discriminate; reflexivity).
    subst. reflexivity. }
  destruct Hshape as (y & -> & Hy). split; [| exists y; reflexivity].
  (* line feeds of the body are those of the parameters *)
  assert (Hbody : In LF y <-> exists p s, In p params /\ str p = Some s /\ In 10%N s).
  { rewrite <- In_LF_map, Hy. unfold body.
    rewrite !in_app_iff.
    assert (N1 : ~ In 10%N (u "%R1Q,")) by (cbn; intuition discriminate).
    assert (N2 : ~ In 10%N code) by exact (str_int_no_feed rpc_code code Hc).
    assert (N3 : ~ In 10%N tr).
    { destruct tid as [t |]; [exact (str_int_no_feed t tr Ht) | subst tr; intros []]. }
    assert (N4 : ~ In 10%N (u ":")) by (cbn; intuition discriminate).
    assert (J : In 10%N (join (u ",") strs)
                <-> exists p s, In p params /\ str p = Some s /\ In 10%N s).
    { pose proof (Exists_join (fun c => c = 10%N) (u ",") strs) as EJ.
      rewrite !Exists_exists in EJ.
      assert (Hsep : ~ (exists c, In c (u ",") /\ c = 10%N)).
      { intros [c [Hin ->]]. cbn in Hin. intuition discriminate. }
      specialize (EJ Hsep). split.
      - intros Hin.
        destruct (proj1 EJ (ex_intro _ 10%N (conj Hin eq_refl))) as [s [Hin' Hc']].
        destruct (rendered_from _ _ _ Hs Hin') as [p [Hp Ep]].
        apply Exists_exists in Hc'. destruct Hc' as [c [Hc' ->]].
        exists p, s. auto.
      - intros [p [s [Hp [Ep Hc']]]].
        destruct (rendered_In _ _ _ Hs Hp) as [s' [Hin' Ep']].
        assert (s' = s) by congruence. subst s'.
        destruct (proj2 EJ) as [c [Hin ->]]; [| exact Hin].
        exists s. split; [exact Hin' |].
        apply Exists_exists. exists 10%N. split; [exact Hc' | reflexivity]. }
    tauto. }
  split.
  - intros Hline p s Hp Ep Hc'.
    assert (Hin : In LF y) by (apply Hbody; exists p, s; auto).
    apply in_split in Hin. destruct Hin as (y1 & y2 & ->).
    pose proof (take_line_feed ((y1 ++ LF :: y2) ++ CRLF) y1 (y2 ++ CRLF)) as Hf.
    rewrite Hline in Hf. cbn [fst] in Hf.
    rewrite <- app_assoc in Hf. specialize (Hf eq_refl).
    destruct y2; discriminate.
  - intros Hno.
    assert (Hy' : ~ In LF (y ++ [CR])).
    { rewrite in_app_iff. intros [Hin | [E' | []]]; [| discriminate].
      apply Hbody in Hin. destruct Hin as [p [s [Hp [Ep Hc']]]].
      exact (Hno p s Hp Ep Hc'). }
    replace (y ++ CRLF) with ((y ++ [CR]) ++ LF :: [])
      by (rewrite <- app_assoc; reflexivity).
    rewrite (take_line_first_feed _ [] Hy'). rewrite <- !app_assoc. reflexivity.
Qed.

(** ** Parameters written and read back *)

Lemma encode_decode_ascii (s : pystr) (x : bytes) :
  encode_ascii s = Some x -> decode_ascii x = Some s.
Proof.
  revert x. induction s as [| c s IH]; simpl; intros x E.
  - injection E as <-. reflexivity.
  - destruct (N.ltb_spec c 128) as [Hlt |]; [| discriminate].
    destruct (Byte.of_N c) as [c' |] eqn:C; [| discriminate].
    destruct (encode_ascii s) as [r |]; [| discriminate].
    injection E as <-. simpl. rewrite (Byte.to_of_N _ C).
    destruct (N.ltb_spec c 128); [| lia]. rewrite (IH r eq_refl). reflexivity.
Qed.

(** The bytes of a numeral are digits, behind a minus sign at most. *)
Lemma decimal_bytes (n : Z) : Forall (fun c => is_digit c \/ c = x2d) (decimal n).
Proof.
  unfold decimal.
  assert (U : forall d, Forall (fun c => is_digit c \/ c = x2d)
                          (b (NilZero.string_of_uint d))).
  { intros d.
    assert (E : Forall (fun c => is_digit c \/ c = x2d)
                  (b (NilEmpty.string_of_uint d))).
    { apply Forall_impl with (2 := digits_are_digits d). tauto. }
    destruct d; try exact E. constructor; [left; discriminate | constructor]. }
  destruct (Z.to_int n) as [d | d]; cbn [NilZero.string_of_int].
  - apply U.
  - change (b (String "-" ?s)) with (x2d :: b s).
    constructor; [right; reflexivity | apply U].
Qed.

Lemma decimal_without (n : Z) (c : byte) :
  digit_value c = None -> c <> x2d -> ~ In c (decimal n).
Proof.
  intros Hd Hm Hin. pose proof (decimal_bytes n) as H.
  rewrite Forall_forall in H. destruct (H c Hin) as [Hc | Hc]; [| exact (Hm Hc)].
  exact (Hc Hd).
Qed.

(** X16: parameters survive the way through the protocol.  Take a reply
    whose fields are written as [send_request] writes them: the statuses and
    the transaction id as decimal numerals of no more digits than [str]
    writes, the parameters by their [str] rendering, separated by commas.
    If no rendering holds a comma and the body does not end in a carriage
    return or line feed of its own, then [decode] returns the same numbers
    and the renderings themselves. *)
Theorem reply_round_trip {V : Type} `{Str V}
    (status rpc : Z) (tid : option Z) (params : list V)
    (strs : list pystr) (ps : list bytes) :
  fits status -> fits rpc -> (forall t, tid = Some t -> fits t) ->
  Forall2 (fun p s => str p = Some s) params strs ->
  Forall2 (fun s x => encode_ascii s = Some x) strs ps ->
  Forall (fun x => ~ In COMMA x) ps ->
  rstrip CRLF (bjoin [COMMA] (decimal rpc :: ps)) = bjoin [COMMA] (decimal rpc :: ps) ->
  decode (bjoin [COMMA]
            (b "%R1P" :: decimal status
               :: match tid with Some t => [decimal t] | None => [] end)
            ++ COLON :: bjoin [COMMA] (decimal rpc :: ps) ++ CRLF)
  = inr (mkReply rpc strs tid status)
  /\ str status = Some (map Byte.to_N (decimal status))
  /\ str rpc = Some (map Byte.to_N (decimal rpc)).
Proof.
  intros Fs Fr Ft _ Hps Hcomma Hfix.
  split; [| split; apply str_int_fits; assumption].
  assert (NC : forall n, ~ In COMMA (decimal n))
    by (intros n; apply decimal_without; [reflexivity | discriminate]).
  assert (NL : forall n, ~ In COLON (decimal n))
    by (intros n; apply decimal_without; [reflexivity | discriminate]).
  assert (Hbody : _get_response_parameters (bjoin [COMMA] (decimal rpc :: ps) ++ CRLF)
                  = inr (rpc, strs)).
  { apply parameters_of_fields.
    - constructor; [apply NC | exact Hcomma].
    - exact Hfix.
    - apply py_int_decimal. exact Fr.
    - clear Hcomma Hfix. induction Hps as [| s x strs ps Hs _ IH]; [constructor |].
      constructor; [apply encode_decode_ascii; exact Hs | exact IH]. }
  destruct tid as [t |].
  - change (bjoin [COMMA] [b "%R1P"; decimal status; decimal t])
      with (b "%R1P" ++ COMMA :: decimal status ++ COMMA :: decimal t).
    rewrite decode_cut.
    + rewrite (header_three_fields (decimal status) (decimal t) status t);
        try apply NC; try (apply py_int_decimal; auto).
      cbn [rbind]. rewrite Hbody. reflexivity.
    + rewrite in_app_iff. cbn [In]. rewrite in_app_iff. cbn [In].
      pose proof (NL status). pose proof (NL t).
      assert (~ In COLON (b "%R1P")) by (cbn; intuition discriminate).
      unfold COLON, COMMA in *. intuition discriminate.
  - change (bjoin [COMMA] [b "%R1P"; decimal status])
      with (b "%R1P" ++ COMMA :: decimal status).
    rewrite decode_cut.
    + rewrite (header_two_fields (decimal status) status);
        try apply NC; try (apply py_int_decimal; auto).
      cbn [rbind]. rewrite Hbody. reflexivity.
    + rewrite in_app_iff. cbn [In].
      pose proof (NL status).
      assert (~ In COLON (b "%R1P")) by (cbn; intuition discriminate).
      unfold COLON, COMMA in *. intuition discriminate.
Qed.

(** ** Concrete runs of the further properties *)

Lemma send_request_all_or_nothing_witness :
  exists req,
    request_string 2107 (@nil Z) None = inr req
    /\ sent (objects (snd (send_request 0%nat 2107 (@nil Z) None reporting)) 0%nat)
       = sent (objects reporting 0%nat) ++ req.
Proof.
  assert (Hrun : send_request 0%nat 2107 (@nil Z) None reporting
                 = (inr tt, snd (send_request 0%nat 2107 (@nil Z) None reporting)))
    by (vm_compute; reflexivity).
  exact (proj1 (proj2 (send_request_all_or_nothing 0%nat 2107 (@nil Z) None reporting))
           _ Hrun).
Defined.

Lemma get_response_takes_one_line_witness :
  fst (get_response 0%nat reporting)
  = decode (fst (take_line (incoming (objects reporting 0%nat)))).
Proof.
  exact (proj1 (get_response_takes_one_line 0%nat reporting eq_refl)).
Defined.

Lemma execute_in_full_witness :
  objects (snd (execute 0%nat 2107 (@nil Z) None reporting)) 1%nat
  = objects reporting 1%nat.
Proof.
  pose proof (execute_in_full 0%nat 2107 (@nil Z) None reporting) as Hfull.
  change (request_string 2107 (@nil Z) None)
    with (@inr exn bytes (b "%R1Q,2107:" ++ CRLF)) in Hfull.
  cbv beta iota in Hfull.
  change (is_open (objects reporting 0%nat)) with true in Hfull.
  change (write_ok (objects reporting 0%nat)) with true in Hfull.
  cbv beta iota zeta delta [negb] in Hfull.
  destruct Hfull as (_ & _ & Hother & _).
  apply Hother. discriminate.
Defined.

Lemma execute_outcome_ignores_request_witness :
  fst (execute 0%nat 2008 [0; 0] None (answering None))
  = fst (execute 0%nat 2020 [2] (Some 7) (answering None)).
Proof.
  exact (execute_outcome_ignores_request 0%nat 2008 2020 [0; 0] [2] None (Some 7)
           (answering None) (b "%R1Q,2008:0,0" ++ CRLF) (b "%R1Q,20207:2" ++ CRLF)
           eq_refl eq_refl).
Defined.

Lemma header_checks_in_order_witness :
  _get_response_header (b "%R1Q,x") = inl ReplyType.
Proof.
  apply (proj1 (proj2 (header_checks_in_order (b "%R1Q,x")))).
  - left. reflexivity.
  - vm_compute. discriminate.
Defined.

Lemma decode_checks_in_order_witness :
  decode (b "%R1P,0" ++ COLON :: [x78; x2c; xff]) = inl AsciiDecode.
Proof.
  assert (Hcolon : ~ In COLON (b "%R1P,0")) by (vm_compute; intuition discriminate).
  apply (proj1 (proj2 (decode_checks_in_order (b "%R1P,0") [x78; x2c; xff] Hcolon)
                  0 None eq_refl)).
  left. reflexivity.
Defined.

Lemma decode_parameters_shape_witness :
  List.length (parameters (mkReply 0 [u "2"; u "TPS1200"] (Some 5) 0))
  = count_occ Byte.byte_eq_dec
      (rstrip CRLF (body_of (b "%R1P,0,5:0,2,TPS1200" ++ CRLF))) COMMA
  /\ Forall (fun p => Forall (fun c => (c < 128)%N /\ c <> Byte.to_N COMMA) p)
       (parameters (mkReply 0 [u "2"; u "TPS1200"] (Some 5) 0)).
Proof.
  exact (decode_parameters_shape (b "%R1P,0,5:0,2,TPS1200" ++ CRLF)
           (mkReply 0 [u "2"; u "TPS1200"] (Some 5) 0) eq_refl).
Defined.

Lemma decode_accepts_frames_only_witness :
  exists (cs rs : bytes) (ts : list bytes) (ps : list bytes) (trailer : bytes),
    b "%R1P,0,5:0,2,TPS1200" ++ CRLF
    = bjoin [COMMA] (b "%R1P" :: cs :: ts) ++ COLON
        :: bjoin [COMMA] (rs :: ps) ++ trailer
    /\ Forall (fun c => c = CR \/ c = LF) trailer
    /\ py_int cs = Some 0
    /\ py_int rs = Some 0
    /\ Forall2 (fun p s => decode_ascii p = Some s) ps [u "2"; u "TPS1200"]
    /\ exists t, ts = [t] /\ py_int t = Some 5.
Proof.
  exact (decode_accepts_frames_only (b "%R1P,0,5:0,2,TPS1200" ++ CRLF)
           (mkReply 0 [u "2"; u "TPS1200"] (Some 5) 0) eq_refl).
Defined.

Lemma exit_closes_exactly_on_return_witness :
  is_open (objects (snd (__exit__ 0%nat refusing_writes)) 0%nat) = false
  <-> fst (__exit__ 0%nat refusing_writes) = inr tt.
Proof.
  exact (proj1 (exit_closes_exactly_on_return 0%nat refusing_writes eq_refl)).
Defined.

Lemma with_block_outcome_witness :
  with_as_tps 0%nat (ret tt) closed_ports = (inl PortOpenFailed, closed_ports)
  /\ isinstance PortOpenFailed OSError = true.
Proof.
  exact (proj1 (with_block_outcome 0%nat (ret tt) closed_ports) eq_refl).
Defined.

Lemma main_py_closes_only_after_reply_witness :
  let '(outcome, w', printed) := main_py 0%nat reporting in
  outcome = inr tt /\ is_open (objects w' 0%nat) = false
  /\ printed = ["Port is connected"%string; "Port is disconnected"%string].
Proof.
  pose proof (main_py_closes_only_after_reply 0%nat reporting eq_refl eq_refl) as Hrun.
  cbv zeta in Hrun.
  destruct (main_py 0%nat reporting) as [[outcome w'] printed].
  destruct Hrun as (_ & _ & _ & Hreply & _).
  apply Hreply. vm_compute. tauto.
Defined.

Lemma request_string_merges_code_and_id_witness :
  request_string 2008 [0; 0] (Some 5)
  = request_string (2008 * 10 ^ Z.of_nat (List.length (decimal 5)) + 5) [0; 0] None.
Proof.
  assert (Hfit : fits (2008 * 10 ^ Z.of_nat (List.length (decimal 5)) + 5))
    by (vm_compute; discriminate).
  exact (request_string_merges_code_and_id 2008 5 [0; 0] eq_refl
           ltac:(discriminate) Hfit).
Defined.

Lemma request_is_one_line_iff_witness :
  (take_line (b "%R1Q,2008:0,0" ++ CRLF) = (b "%R1Q,2008:0,0" ++ CRLF, [])
   <-> forall (p : Z) (s : pystr), In p [0; 0] -> str p = Some s -> ~ In 10%N s)
  /\ (exists y, b "%R1Q,2008:0,0" ++ CRLF = y ++ CRLF).
Proof.
  exact (request_is_one_line_iff 2008 [0; 0] None (b "%R1Q,2008:0,0" ++ CRLF) eq_refl).
Defined.

Lemma reply_round_trip_witness :
  decode (bjoin [COMMA] [b "%R1P"; decimal 0; decimal 5]
            ++ COLON :: bjoin [COMMA] [decimal 0; b "1"; b "2"] ++ CRLF)
  = inr (mkReply 0 [u "1"; u "2"] (Some 5) 0).
Proof.
  assert (Hzero : fits 0) by (vm_compute; discriminate).
  assert (Htid : forall t, Some 5 = Some t -> fits t)
    by (intros t E; injection E as <-; vm_compute; discriminate).
  apply (reply_round_trip 0 0 (Some 5) [1; 2] [u "1"; u "2"] [b "1"; b "2"]
           Hzero Hzero Htid).
  - repeat constructor.
  - repeat constructor.
  - repeat constructor; vm_compute; intuition discriminate.
  - reflexivity.
Defined.
